(** * OpenEval item validator: schema classification and recursive validation

  Shallow embedding of [openeval_validator.py].  The Python functions
  [_tag_parts], [_classify], [_validate] and [validate_entry] are
  translated to Rocq functions over a JSON value type; the list of
  violations that the Python code mutates is threaded explicitly. *)

From Stdlib Require Import ZArith List String Ascii Bool Lia.
From Stdlib Require QArith.
From Stdlib Require Import DecimalString DecimalNat.
Import ListNotations.

Local Open Scope string_scope.
Local Open Scope list_scope.

(** ** Python string primitives

    Strings are sequences of characters with code points below 256. *)

Module PyStr.

(** [str.find]: first index of [sub] in [s], or [-1]. *)
Definition find (sub s : string) : Z :=
  match index 0 sub s with
  | Some i => Z.of_nat i
  | None => (-1)%Z
  end.

(** Last occurrence of [sub] in [s], scanning positions [i], [i+1], ... *)
Fixpoint rindex (i : nat) (sub s : string) : option nat :=
  match s with
  | EmptyString => if prefix sub s then Some i else None
  | String _ s' =>
      match rindex (S i) sub s' with
      | Some j => Some j
      | None => if prefix sub s then Some i else None
      end
  end.

(** [str.rfind]: last index of [sub] in [s], or [-1]. *)
Definition rfind (sub s : string) : Z :=
  match rindex 0 sub s with
  | Some i => Z.of_nat i
  | None => (-1)%Z
  end.

(** Normalisation of one slice bound against a string of length [len]:
    a negative bound counts from the end, and every bound is clamped
    to [0 .. len]. *)
Definition clamp (len i : Z) : Z :=
  if (i <? 0)%Z then Z.max 0 (i + len) else Z.min i len.

(** [s[a:b]] *)
Definition slice (s : string) (a b : Z) : string :=
  let len := Z.of_nat (length s) in
  let a' := clamp len a in
  let b' := clamp len b in
  substring (Z.to_nat a') (Z.to_nat (b' - a')) s.

(** [str.split(sep)] for a non-empty separator: [skip] counts the
    characters of a matched separator that are still to be dropped and
    [cur] is the piece read so far. *)
Fixpoint split_aux (sep : string) (skip : nat) (cur s : string) : list string :=
  match s with
  | EmptyString => [cur]
  | String c s' =>
      match skip with
      | S k => split_aux sep k cur s'
      | O =>
          if prefix sep s
          then cur :: split_aux sep (length sep - 1) EmptyString s'
          else split_aux sep 0 (cur ++ String c EmptyString) s'
      end
  end.

Definition split (sep s : string) : list string := split_aux sep 0 EmptyString s.

(** Characters that [str.strip()] removes (code points below 256). *)
Definition is_space (c : ascii) : bool :=
  let n := nat_of_ascii c in
  (Nat.leb 9 n && Nat.leb n 13) || (Nat.leb 28 n && Nat.leb n 32)
  || Nat.eqb n 133 || Nat.eqb n 160.

Fixpoint lstrip (s : string) : string :=
  match s with
  | EmptyString => EmptyString
  | String c s' => if is_space c then lstrip s' else s
  end.

Fixpoint rstrip (s : string) : string :=
  match s with
  | EmptyString => EmptyString
  | String c s' =>
      match rstrip s' with
      | EmptyString => if is_space c then EmptyString else String c EmptyString
      | r => String c r
      end
  end.

(** [str.strip()] *)
Definition strip (s : string) : string := rstrip (lstrip s).

(** [str.startswith] *)
Definition startswith (pre s : string) : bool := prefix pre s.

(** [str.endswith] *)
Definition endswith (suf s : string) : bool :=
  Nat.leb (length suf) (length s)
  && String.eqb (substring (length s - length suf) (length suf) s) suf.

(** [x in xs] for a list or a set of strings. *)
Definition mem (x : string) (xs : list string) : bool :=
  existsb (String.eqb x) xs.

(** [str(i)] for a list index. *)
Definition of_nat (i : nat) : string := NilEmpty.string_of_uint (Nat.to_uint i).

(** Truthiness of a string. *)
Definition truthy (s : string) : bool :=
  match s with EmptyString => false | _ => true end.

End PyStr.

(** ** Data model *)

(** A JSON value as [json.load] builds it: [None], [bool], [int], [float],
    [str], [list] and [dict].  A [dict] is kept as the list of its items in
    insertion order (the order [dict.items()] iterates in); its keys are
    distinct. *)
#[local] Unset Elimination Schemes.
Inductive json : Type :=
| JNull
| JBool (b : bool)
| JInt (n : Z)
| JFloat (x : QArith_base.Q)
| JStr (s : string)
| JList (elems : list json)
| JDict (items : list (string * json)).
#[local] Set Elimination Schemes.

(** The classes that [isinstance] is called with. *)
Inductive pytype : Type := py_str | py_dict | py_list | py_int | py_float | py_bool.

(** [isinstance(v, c)]; [bool] is a subclass of [int]. *)
Definition isinstance (v : json) (c : pytype) : bool :=
match c, v with
| py_str, JStr _ => true
| py_dict, JDict _ => true
| py_list, JList _ => true
| py_int, JInt _ => true
| py_int, JBool _ => true
| py_float, JFloat _ => true
| py_bool, JBool _ => true
| _, _ => false
end.

(** [isinstance(v, classes)] for a tuple of classes. *)
Definition isinstance_any (v : json) (classes : list pytype) : bool :=
existsb (isinstance v) classes.

(** [key in data] and [data[key]] on the items of a dict. *)
Fixpoint lookup (key : string) (items : list (string * json)) : option json :=
match items with
| [] => None
| (k, v) :: rest => if String.eqb key k then Some v else lookup key rest
end.

(** The strings that [_classify] returns. *)
Inductive kind : Type :=
| k_auto
| k_optional
| k_required_str
| k_required_any
| k_required_numeric
| k_required_dict
| k_required_list_str
| k_required_list_dict.

(** The exception classes stored under ["violation_type"]. *)
Inductive exn_class : Type := KeyError | ValueError | TypeError.

(** The names the specification gives to the three violation kinds. *)
Definition MissingField : exn_class := KeyError.
Definition NullOrEmptyValue : exn_class := ValueError.
Definition TypeMismatch : exn_class := TypeError.

(** One violation dict. *)
Record violation : Type := Violation {
  field : string;
  field_desc : json;
  violation_type : exn_class
}.

(** ** Tag classifier *)

(** [_tag_parts(schema_str)]: the text from index 1 to the closing
    position, split on commas, each piece stripped. *)
Definition _tag_parts (schema_str : string) : list string :=
let close := PyStr.find "] " schema_str in
let close := if (close =? -1)%Z then PyStr.rfind "]" schema_str else close in
map PyStr.strip (PyStr.split "," (PyStr.slice schema_str 1 close)).

(** [parts[0]]; [_tag_parts] never returns an empty list. *)
Definition first_part (parts : list string) : string := hd EmptyString parts.

(** [{t.strip() for t in first.split(' or ')}], as the list of its members. *)
Definition type_tokens_of (first : string) : list string :=
map PyStr.strip (PyStr.split " or " first).

(** [tokens <= {'int', 'float', 'bool'}] *)
Definition subset_numeric (tokens : list string) : bool :=
forallb (fun t => PyStr.mem t ["int"; "float"; "bool"]) tokens.

(** Truthiness of a list, tuple or set. *)
Definition nonempty {A : Type} (l : list A) : bool :=
match l with [] => false | _ => true end.

(** [_classify(schema_value)] *)
Definition _classify (schema_value : json) : kind :=
match schema_value with
| JStr s =>
    let parts := _tag_parts s in
    if PyStr.mem "auto" parts then k_auto
    else if PyStr.mem "optional" parts then k_optional
    else if PyStr.startswith "list[" (first_part parts) then k_required_list_str
    else if String.eqb (first_part parts) "any" then k_required_any
    else
      let type_tokens := type_tokens_of (first_part parts) in
      if nonempty type_tokens && subset_numeric type_tokens
      then k_required_numeric
      else k_required_str
| JDict _ => k_required_dict
| JList (item :: _) =>
    match item with
    | JStr s =>
        let parts := _tag_parts s in
        if PyStr.mem "auto" parts || PyStr.mem "optional" parts
        then k_optional
        else k_required_list_str
    | JDict _ => k_required_list_dict
    | _ => k_auto
    end
| _ => k_auto
end.

(** ** Recursive validator *)

(** [violations.append({...})] *)
Definition append (violations : list violation)
  (f : string) (desc : json) (t : exn_class) : list violation :=
violations ++ [Violation f desc t].

(** The descriptor recorded when the validated value is not a dict. *)
Definition item_desc : json := JStr "OPENEVAL ITEM IN JSON FORMAT".

(** [f"{path}.{key}" if path else key] *)
Definition field_path_of (path key : string) : string :=
if PyStr.truthy path then path ++ "." ++ key else key.

(** [f"{field_path}[{i}]"] *)
Definition elem_path (field_path : string) (i : nat) : string :=
field_path ++ "[" ++ PyStr.of_nat i ++ "]".

(** [key.endswith('_content') or key == 'responses'] *)
Definition must_be_non_empty (key : string) : bool :=
PyStr.endswith "_content" key || String.eqb key "responses".

(** The value of [valid] after the three [if] statements of the
    [required_numeric] branch. *)
Definition numeric_valid (type_tokens : list string) (v : json) : bool :=
let valid := false in
let valid :=
  if PyStr.mem "bool" type_tokens then valid || isinstance v py_bool else valid in
let valid :=
  if PyStr.mem "int" type_tokens
  then valid || (isinstance v py_int && negb (isinstance v py_bool))
  else valid in
let valid :=
  if PyStr.mem "float" type_tokens
  then valid || (isinstance_any v [py_int; py_float] && negb (isinstance v py_bool))
  else valid in
valid.

(** [_type_map] *)
Definition _type_map (name : string) : option pytype :=
if String.eqb name "str" then Some py_str
else if String.eqb name "dict" then Some py_dict
else if String.eqb name "int" then Some py_int
else if String.eqb name "float" then Some py_float
else if String.eqb name "bool" then Some py_bool
else None.

(** [tuple(_type_map[t.strip()] for t in inner_type_str.split(' or ')
           if t.strip() in _type_map)] *)
Definition allowed_of (inner_type_str : string) : list pytype :=
flat_map (fun t => match _type_map (PyStr.strip t) with
                   | Some c => [c]
                   | None => []
                   end)
         (PyStr.split " or " inner_type_str).

(** [inner_type_str] of the [required_list_str] branch; [None] and the
    empty string are both falsy and are both rendered as the empty string. *)
Definition inner_type_str_of (schema_value : json) : string :=
match schema_value with
| JStr s => PyStr.slice (first_part (_tag_parts s)) 5 (-1)
| JList (JStr s :: _) => first_part (_tag_parts s)
| _ => EmptyString
end.

(** The loop [for i, elem in enumerate(data[key])] of the
    [required_list_str] branch, started at index [i]. *)
Fixpoint check_elems (allowed : list pytype) (field_path : string)
  (schema_value : json) (i : nat) (elems : list json)
  (violations : list violation) : list violation :=
match elems with
| [] => violations
| elem :: rest =>
    let violations :=
      if negb (isinstance_any elem allowed)
      then append violations (elem_path field_path i) schema_value TypeError
      else violations in
    check_elems allowed field_path schema_value (S i) rest violations
end.

(** The loop [for i, item in enumerate(data[key])] of the
    [required_list_dict] branch, started at index [i]; [call item p vs] is
    the recursive call [_validate(item, template, vs, p)]. *)
Fixpoint each_item (call : json -> list violation -> string -> list violation)
  (field_path : string) (i : nat) (elems : list json)
  (violations : list violation) : list violation :=
match elems with
| [] => violations
| item :: rest =>
    each_item call field_path (S i) rest
      (call item violations (elem_path field_path i))
end.

(** The emptiness check shared by the two list branches. *)
Definition check_non_empty (key field_path : string) (schema_value : json)
  (elems : list json) (violations : list violation) : list violation :=
if must_be_non_empty key && Nat.eqb (List.length elems) 0
then append violations field_path schema_value ValueError
else violations.

(** The body of the loop [for key, schema_value in schema.items()], for a
    [data] that is a dict with items [data]; [self] stands for [_validate]
    in the two recursive calls. *)
Definition validate_field
  (self : json -> json -> list violation -> string -> list violation)
  (data : list (string * json)) (key : string) (schema_value : json)
  (violations : list violation) (path : string) : list violation :=
let field_path := field_path_of path key in
match _classify schema_value with
| k_auto | k_optional => violations
| k_required_str =>
    match lookup key data with
    | None => append violations field_path schema_value KeyError
    | Some JNull => append violations field_path schema_value ValueError
    | Some v =>
        if negb (isinstance v py_str)
        then append violations field_path schema_value TypeError
        else violations
    end
| k_required_any =>
    match lookup key data with
    | None => append violations field_path schema_value KeyError
    | Some _ => violations
    end
| k_required_numeric =>
    match lookup key data with
    | None => append violations field_path schema_value KeyError
    | Some v =>
        match schema_value with
        | JStr s =>
            let type_tokens := type_tokens_of (first_part (_tag_parts s)) in
            if negb (numeric_valid type_tokens v)
            then append violations field_path schema_value TypeError
            else violations
        | _ => violations
        end
    end
| k_required_dict =>
    match lookup key data with
    | None => append violations field_path schema_value KeyError
    | Some v =>
        if negb (isinstance v py_dict)
        then append violations field_path schema_value TypeError
        else self v schema_value violations field_path
    end
| k_required_list_str =>
    match lookup key data with
    | None => append violations field_path schema_value KeyError
    | Some (JList elems) =>
        let violations :=
          check_non_empty key field_path schema_value elems violations in
        let inner_type_str := inner_type_str_of schema_value in
        if PyStr.truthy inner_type_str
        then
          let allowed := allowed_of inner_type_str in
          if nonempty allowed
          then check_elems allowed field_path schema_value 0 elems violations
          else violations
        else violations
    | Some _ => append violations field_path schema_value TypeError
    end
| k_required_list_dict =>
    match lookup key data with
    | None => append violations field_path schema_value KeyError
    | Some (JList elems) =>
        let violations :=
          check_non_empty key field_path schema_value elems violations in
        match schema_value with
        | JList (template :: _) =>
            each_item (fun item => self item template) field_path 0 elems violations
        | _ => violations
        end
    | Some _ => append violations field_path schema_value TypeError
    end
end.

(** [_validate(data, schema, violations, path)]; the result is the list
    [violations] after the call.  [schema] is a dict in every call the
    validator makes (see [classify_dict] and [classify_list_dict]); on
    another schema value Python would fail at [schema.items()], and the
    function leaves the list as it is. *)
Fixpoint _validate (data schema : json) (violations : list violation)
  (path : string) {struct schema} : list violation :=
match data with
| JDict d =>
    match schema with
    | JDict items =>
        (fix each_field (items : list (string * json))
             (violations : list violation) : list violation :=
           match items with
           | [] => violations
           | (key, schema_value) :: rest =>
               each_field rest
                 (validate_field _validate d key schema_value violations path)
           end) items violations
    | _ => violations
    end
| _ => append violations path item_desc TypeError
end.

(** ** Entry point *)

Section Entry.

(** The parsed contents of [item_schema.json], a dict. *)
Variable item_schema_json : list (string * json).

(** [_load_schema], with the module-level [_schema_cache] passed in and
    returned. *)
Definition _load_schema (_schema_cache : option (list (string * json)))
  : list (string * json) * option (list (string * json)) :=
match _schema_cache with
| None => (item_schema_json, Some item_schema_json)
| Some schema => (schema, _schema_cache)
end.

(** [validate_entry(entry)], returning [(is_valid, violations)] and the
    cache after the call. *)
Definition validate_entry (_schema_cache : option (list (string * json)))
  (entry : json) : (bool * list violation) * option (list (string * json)) :=
let (schema, _schema_cache) := _load_schema _schema_cache in
let violations := _validate entry (JDict schema) [] EmptyString in
((Nat.eqb (List.length violations) 0, violations), _schema_cache).

End Entry.

(** ** The example of the specification *)

Definition example_schema : list (string * json) :=
[ ("id", JStr "[auto] id");
  ("title", JStr "title text");
  ("scores", JList [JStr "[int or float] a score"]);
  ("tags_content", JList [JStr "tag text"]) ].

Definition example_items : list (string * json) :=
[ ("title", JInt 5);
  ("scores", JList [JStr "x"]);
  ("tags_content", JList []) ].

Definition example_record : json := JDict example_items.

(** ** Notions used in the statements *)

(** [f] only appends to the list it is given. *)
Definition extends (f : list violation -> list violation) : Prop :=
forall violations, f violations = violations ++ f [].

(** [s] is the tag [tag] in brackets, alone or followed by a space and a
    description. *)
Definition tagged (tag s : string) : Prop :=
s = ("[" ++ tag ++ "]")%string \/
exists desc, s = ("[" ++ tag ++ "] " ++ desc)%string.

(** The numeric predicates in the words of the specification:
    is-boolean, is-integer (Python counts a boolean as an integer) and
    is-float. *)
Definition is_boolean (v : json) : bool :=
match v with JBool _ => true | _ => false end.

Definition is_integer (v : json) : bool :=
match v with JInt _ | JBool _ => true | _ => false end.

Definition is_float (v : json) : bool :=
match v with JFloat _ => true | _ => false end.

(** The predicate of one allowed token: [bool] is is-boolean, [int] is
    is-integer-and-not-boolean, [float] is
    is-integer-or-float-and-not-boolean. *)
Definition token_accepts (token : string) (v : json) : bool :=
if String.eqb token "bool" then is_boolean v
else if String.eqb token "int" then is_integer v && negb (is_boolean v)
else if String.eqb token "float"
     then (is_integer v || is_float v) && negb (is_boolean v)
else false.

(** The tag grammar in the words of the specification: the closing
    position is the first occurrence of ["] "] or, when there is none, the
    last ["]"]; the tag is the substring between the first ["["] and the
    closing position. *)
Definition spec_close (s : string) : option nat :=
match index 0 "] " s with
| Some c => Some c
| None => PyStr.rindex 0 "]" s
end.

Definition spec_tag (s : string) : option string :=
match index 0 "[" s, spec_close s with
| Some o, Some c => Some (substring (S o) (c - S o) s)
| _, _ => None
end.

(** The tag split on commas, each token trimmed. *)
Definition spec_tokens (tag : string) : list string :=
map PyStr.strip (PyStr.split "," tag).

(** The classification rules for the tokens of a tagged string, in the
    order of the specification. *)
Inductive spec_kind (tokens : list string) : kind -> Prop :=
| rule_auto :
    In "auto" tokens ->
    spec_kind tokens k_auto
| rule_optional :
    ~ In "auto" tokens -> In "optional" tokens ->
    spec_kind tokens k_optional
| rule_list first :
    ~ In "auto" tokens -> ~ In "optional" tokens ->
    hd_error tokens = Some first ->
    (exists rest, first = "list[" ++ rest)%string ->
    spec_kind tokens k_required_list_str
| rule_any first :
    ~ In "auto" tokens -> ~ In "optional" tokens ->
    hd_error tokens = Some first ->
    ~ (exists rest, first = "list[" ++ rest)%string ->
    first = "any" ->
    spec_kind tokens k_required_any
| rule_numeric first :
    ~ In "auto" tokens -> ~ In "optional" tokens ->
    hd_error tokens = Some first ->
    ~ (exists rest, first = "list[" ++ rest)%string ->
    first <> "any" ->
    (forall t, In t (type_tokens_of first) -> In t ["int"; "float"; "bool"]) ->
    spec_kind tokens k_required_numeric
| rule_str first :
    ~ In "auto" tokens -> ~ In "optional" tokens ->
    hd_error tokens = Some first ->
    ~ (exists rest, first = "list[" ++ rest)%string ->
    first <> "any" ->
    (exists t, In t (type_tokens_of first) /\ ~ In t ["int"; "float"; "bool"]) ->
    spec_kind tokens k_required_str.

(** The violations of the element loop of a string list, one test per
    element in index order. *)
Fixpoint elem_mismatches (allowed : list pytype) (field_path : string)
  (schema_value : json) (i : nat) (elems : list json) : list violation :=
match elems with
| [] => []
| elem :: rest =>
    (if isinstance_any elem allowed then []
     else [Violation (elem_path field_path i) schema_value TypeMismatch])
    ++ elem_mismatches allowed field_path schema_value (S i) rest
end.

(** What the two list branches do after the emptiness check, started on
    an empty list of violations. *)
Definition element_checks (schema_value : json) (field_path : string)
  (elems : list json) : list violation :=
match _classify schema_value with
| k_required_list_str =>
    let allowed := allowed_of (inner_type_str_of schema_value) in
    if nonempty allowed
    then check_elems allowed field_path schema_value 0 elems []
    else []
| k_required_list_dict =>
    match schema_value with
    | JList (template :: _) =>
        each_item (fun item => _validate item template) field_path 0 elems []
    | _ => []
    end
| _ => []
end.

(** [schema_value_at schema path f d]: in the schema dict [schema],
    validated at [path], [d] is the schema value of the field whose path
    is [f], or of the list field one of whose elements has path [f]. *)
Inductive schema_value_at : json -> string -> string -> json -> Prop :=
| at_field items path key sv :
    In (key, sv) items ->
    schema_value_at (JDict items) path (field_path_of path key) sv
| at_elem items path key sv i :
    In (key, sv) items ->
    schema_value_at (JDict items) path (elem_path (field_path_of path key) i) sv
| at_dict items path key sub f d :
    In (key, JDict sub) items ->
    schema_value_at (JDict sub) (field_path_of path key) f d ->
    schema_value_at (JDict items) path f d
| at_item items path key template rest i f d :
    In (key, JList (template :: rest)) items ->
    schema_value_at template (elem_path (field_path_of path key) i) f d ->
    schema_value_at (JDict items) path f d.

(** [validated_at schema path p]: [p] is [path], or the path of a nested
    dict field or of an element of a dict list below it. *)
Inductive validated_at : json -> string -> string -> Prop :=
| val_here schema path :
    validated_at schema path path
| val_dict items path key sub p :
    In (key, JDict sub) items ->
    validated_at (JDict sub) (field_path_of path key) p ->
    validated_at (JDict items) path p
| val_item items path key template rest i p :
    In (key, JList (template :: rest)) items ->
    validated_at template (elem_path (field_path_of path key) i) p ->
    validated_at (JDict items) path p.

(** A violation is either the report of a value that is not a dict, at a
    validated position and with the fixed descriptor, or the report of a
    field or list element with the schema value of that field. *)
Definition reported (schema : json) (path : string) (v : violation) : Prop :=
(validated_at schema path (field v) /\
 field_desc v = item_desc /\ violation_type v = TypeMismatch) \/
schema_value_at schema path (field v) (field_desc v).

(** The string without its first [n] characters. *)
Fixpoint str_drop (n : nat) (s : string) : string :=
match n, s with
| O, _ => s
| S n', String _ s' => str_drop n' s'
| S _, EmptyString => EmptyString
end.

(** What one schema field asks of the record [d] for the validator to add
    no violation: nothing for a skipped field, and for a required field
    a present value of the right shape. *)
Definition field_ok (d : list (string * json)) (key : string)
  (schema_value : json) (path : string) : Prop :=
let fp := field_path_of path key in
match _classify schema_value with
| k_auto | k_optional => True
| k_required_str => exists s, lookup key d = Some (JStr s)
| k_required_any => exists v, lookup key d = Some v
| k_required_numeric =>
    exists v, lookup key d = Some v /\
      forall s, schema_value = JStr s ->
        existsb (fun t => token_accepts t v)
                (type_tokens_of (first_part (_tag_parts s))) = true
| k_required_dict =>
    exists items, lookup key d = Some (JDict items) /\
      _validate (JDict items) schema_value [] fp = []
| k_required_list_str =>
    exists elems, lookup key d = Some (JList elems) /\
      (must_be_non_empty key = true -> elems <> []) /\
      (allowed_of (inner_type_str_of schema_value) <> [] ->
       forall e, In e elems ->
         isinstance_any e (allowed_of (inner_type_str_of schema_value)) = true)
| k_required_list_dict =>
    exists elems, lookup key d = Some (JList elems) /\
      (must_be_non_empty key = true -> elems <> []) /\
      forall template rest, schema_value = JList (template :: rest) ->
      forall i e, nth_error elems i = Some e ->
        _validate e template [] (elem_path fp i) = []
end.

(** A violation without its path. *)
Definition unlabelled (v : violation) : json * exn_class :=
(field_desc v, violation_type v).

(** The violation that a schema field gets for itself, if any: a missing
    key, a null or empty value, or a value of the wrong type. *)
Definition field_violation (d : list (string * json)) (key : string)
  (schema_value : json) : option exn_class :=
match _classify schema_value with
| k_auto | k_optional => None
| k_required_str =>
    match lookup key d with
    | None => Some MissingField
    | Some JNull => Some NullOrEmptyValue
    | Some (JStr _) => None
    | Some _ => Some TypeMismatch
    end
| k_required_any =>
    match lookup key d with
    | None => Some MissingField
    | Some _ => None
    end
| k_required_numeric =>
    match lookup key d with
    | None => Some MissingField
    | Some v =>
        match schema_value with
        | JStr s =>
            if existsb (fun t => token_accepts t v)
                 (type_tokens_of (first_part (_tag_parts s)))
            then None
            else Some TypeMismatch
        | _ => None
        end
    end
| k_required_dict =>
    match lookup key d with
    | None => Some MissingField
    | Some (JDict _) => None
    | Some _ => Some TypeMismatch
    end
| k_required_list_str | k_required_list_dict =>
    match lookup key d with
    | None => Some MissingField
    | Some (JList elems) =>
        if must_be_non_empty key && negb (nonempty elems)
        then Some NullOrEmptyValue
        else None
    | Some _ => Some TypeMismatch
    end
end.

(** The violations that a schema field gets below itself: those of a
    nested object and those of the elements of a list. *)
Definition nested_checks (d : list (string * json)) (key : string)
  (schema_value : json) (path : string) : list violation :=
match _classify schema_value, lookup key d with
| k_required_dict, Some (JDict d') =>
    _validate (JDict d') schema_value [] (field_path_of path key)
| k_required_list_str, Some (JList elems) =>
    element_checks schema_value (field_path_of path key) elems
| k_required_list_dict, Some (JList elems) =>
    element_checks schema_value (field_path_of path key) elems
| _, _ => []
end.

(** [emitted data schema path v]: the violations of validating [data]
    against [schema] at [path], each with the descriptor it carries.
    - A value that is not an object gets a TypeMismatch at its own path
      with the fixed descriptor.
    - A schema field gets its own violation at the path of the field,
      with the schema value of the field.
    - An element of a string list that is not an instance of an allowed
      class gets a TypeMismatch at [field[i]] with the schema value of the
      list field.
    - The violations of an object under an object field, and of the
      elements of an object list at [field[i]], are emitted in turn. *)
Inductive emitted : json -> json -> string -> violation -> Prop :=
| em_not_object data schema path :
    isinstance data py_dict = false ->
    emitted data schema path (Violation path item_desc TypeMismatch)
| em_field d items path key sv t :
    In (key, sv) items ->
    field_violation d key sv = Some t ->
    emitted (JDict d) (JDict items) path
      (Violation (field_path_of path key) sv t)
| em_element d items path key sv elems i e :
    In (key, sv) items ->
    _classify sv = k_required_list_str ->
    lookup key d = Some (JList elems) ->
    nth_error elems i = Some e ->
    allowed_of (inner_type_str_of sv) <> [] ->
    isinstance_any e (allowed_of (inner_type_str_of sv)) = false ->
    emitted (JDict d) (JDict items) path
      (Violation (elem_path (field_path_of path key) i) sv TypeMismatch)
| em_in_dict d items path key sub d' v :
    In (key, JDict sub) items ->
    lookup key d = Some (JDict d') ->
    emitted (JDict d') (JDict sub) (field_path_of path key) v ->
    emitted (JDict d) (JDict items) path v
| em_in_item d items path key template rest elems i e v :
    In (key, JList (template :: rest)) items ->
    _classify (JList (template :: rest)) = k_required_list_dict ->
    lookup key d = Some (JList elems) ->
    nth_error elems i = Some e ->
    emitted e template (elem_path (field_path_of path key) i) v ->
    emitted (JDict d) (JDict items) path v.

(** * Properties *)

(** ** Checks of the string primitives against Python's results *)

Example find_ex : PyStr.find "] " "[int or float] a score" = 13%Z.
Proof. reflexivity. Qed.
Example find_none_ex : PyStr.find "] " "title text" = (-1)%Z.
Proof. reflexivity. Qed.
Example rfind_ex : PyStr.rfind "]" "[list[str]]" = 10%Z.
Proof. reflexivity. Qed.
Example slice_ex : PyStr.slice "title text" 1 (-1) = "itle tex".
Proof. reflexivity. Qed.
Example slice_inner_ex : PyStr.slice "list[float]" 5 (-1) = "float".
Proof. reflexivity. Qed.
Example split_ex : PyStr.split "," "a, b,,c" = ["a"; " b"; ""; "c"].
Proof. reflexivity. Qed.
Example split_or_ex : PyStr.split " or " "int or float" = ["int"; "float"].
Proof. reflexivity. Qed.
Example split_empty_ex : PyStr.split "," "" = [""].
Proof. reflexivity. Qed.
Example find_first_ex : PyStr.find "] " "a] b] c" = 1%Z.
Proof. reflexivity. Qed.
Example rfind_last_ex : PyStr.rfind "]" "a]b]" = 3%Z.
Proof. reflexivity. Qed.
Example slice_short_ex :
  PyStr.slice "a" 1 (-1) = "" /\ PyStr.slice "]x" 1 0 = "" /\
  PyStr.slice "list[" 5 (-1) = "".
Proof. repeat split; reflexivity. Qed.
Example split_adjacent_ex : PyStr.split " or " "int or  or float" = ["int"; ""; "float"].
Proof. reflexivity. Qed.
Example split_edges_ex : PyStr.split "," ",a," = [""; "a"; ""].
Proof. reflexivity. Qed.
Example strip_ex : PyStr.strip "  a b  " = "a b".
Proof. reflexivity. Qed.
Example strip_tab_ex :
  PyStr.strip (String (ascii_of_nat 9) "int" ++ String (ascii_of_nat 10) "")%string
  = "int".
Proof. reflexivity. Qed.
Example endswith_ex : PyStr.endswith "_content" "tags_content" = true.
Proof. reflexivity. Qed.
Example of_nat_ex : PyStr.of_nat 0 = "0" /\ PyStr.of_nat 12 = "12".
Proof. split; reflexivity. Qed.

(** ** Strings *)

Lemma app_str_assoc (a b c : string) : ((a ++ b) ++ c = a ++ (b ++ c))%string.
Proof.
induction a as [|x a IH]; simpl; [reflexivity|now rewrite IH].
Qed.

Lemma app_str_nil_r (a : string) : (a ++ "" = a)%string.
Proof.
induction a as [|x a IH]; simpl; [reflexivity|now rewrite IH].
Qed.

Lemma app_str_length (a b : string) :
  length (a ++ b)%string = length a + length b.
Proof.
induction a as [|x a IH]; simpl; [reflexivity|now rewrite IH].
Qed.

Lemma app_str_inv_head (p a b : string) : (p ++ a = p ++ b)%string -> a = b.
Proof.
induction p as [|x p IH]; simpl; intros H; [exact H|].
injection H as H. now apply IH.
Qed.

Lemma app_str_inv_last (a b : string) (c : ascii) :
  (a ++ String c "" = b ++ String c "")%string -> a = b.
Proof.
revert b; induction a as [|x a IH]; intros [|y b]; simpl; intros H.
- reflexivity.
- injection H as _ H. destruct b; discriminate.
- injection H as _ H. destruct a; discriminate.
- injection H as <- H. f_equal. now apply IH.
Qed.

Lemma substring_zero_len (n : nat) (s : string) : substring n 0 s = "".
Proof.
revert n; induction s as [|x s IH]; intros [|n]; simpl; auto.
Qed.

Lemma substring_skip (p s : string) (m : nat) :
  substring (length p) m (p ++ s)%string = substring 0 m s.
Proof.
induction p as [|x p IH]; simpl; auto.
Qed.

Lemma substring_all (s : string) : substring 0 (length s) s = s.
Proof.
induction s as [|x s IH]; simpl; [reflexivity|now rewrite IH].
Qed.

Lemma substring_split (n : nat) (s : string) :
  n <= length s ->
  (s = substring 0 n s ++ substring n (length s - n) s)%string.
Proof.
revert n; induction s as [|x s IH]; intros [|n] Hn; simpl in *; try lia.
- reflexivity.
- now rewrite substring_all.
- f_equal. apply IH. lia.
Qed.

(** [rindex] finds the last position at which [sub] starts. *)
Lemma rindex_none (sub s : string) :
  forall i, PyStr.rindex i sub s = None ->
  forall m, m <= length s ->
  prefix sub (substring m (length s - m) s) = false.
Proof.
induction s as [|a s IH]; intros i H m Hm; cbn [PyStr.rindex] in H.
- assert (m = 0) by (simpl in Hm; lia). subst m. cbn.
  destruct (prefix sub "") eqn:E; [discriminate|].
  destruct sub; [discriminate|reflexivity].
- destruct (PyStr.rindex (S i) sub s) eqn:E; [discriminate|].
  destruct (prefix sub (String a s)) eqn:Ep; [discriminate|].
  destruct m as [|m].
  + rewrite Nat.sub_0_r, substring_all. exact Ep.
  + simpl in Hm. apply (IH (S i) E m). lia.
Qed.

Lemma rindex_some (sub s : string) :
  forall i k, PyStr.rindex i sub s = Some k ->
  exists j, k = i + j /\ j <= length s /\
    prefix sub (substring j (length s - j) s) = true /\
    forall m, j < m -> m <= length s ->
      prefix sub (substring m (length s - m) s) = false.
Proof.
induction s as [|a s IH]; intros i k H; cbn [PyStr.rindex] in H.
- destruct (prefix sub "") eqn:E; [|discriminate]. injection H as <-.
  exists 0. split; [lia|]. split; [lia|]. split; [exact E|].
  simpl. intros m Hm1 Hm2. lia.
- destruct (PyStr.rindex (S i) sub s) as [k'|] eqn:E.
  + injection H as <-. destruct (IH _ _ E) as [j [-> [Hj [Hp Hlast]]]].
    exists (S j). simpl length. split; [lia|]. split; [lia|].
    split; [exact Hp|].
    intros [|m] Hm1 Hm2; [lia|]. apply Hlast; lia.
  + destruct (prefix sub (String a s)) eqn:Ep; [|discriminate].
    injection H as <-. exists 0.
    split; [lia|]. split; [lia|].
    split; [now rewrite Nat.sub_0_r, substring_all|].
    intros [|m] Hm1 Hm2; [lia|]. simpl in Hm2.
    apply (rindex_none sub s (S i) E m). lia.
Qed.

(** [endswith] holds exactly of the strings that end with the suffix. *)
Lemma endswith_spec (suf s : string) :
  PyStr.endswith suf s = true <-> exists pre, (s = pre ++ suf)%string.
Proof.
unfold PyStr.endswith. rewrite andb_true_iff, Nat.leb_le, String.eqb_eq.
split.
- intros [Hlen Hsub]. exists (substring 0 (length s - length suf) s).
  pose proof (substring_split (length s - length suf) s) as E.
  replace (length s - (length s - length suf)) with (length suf) in E by lia.
  rewrite Hsub in E. apply E. lia.
- intros [pre ->]. rewrite app_str_length. split; [lia|].
  replace (length pre + length suf - length suf) with (length pre) by lia.
  rewrite substring_skip. apply substring_all.
Qed.

(** A slice with two non-negative bounds is a [substring]. *)
Lemma slice_nat (s : string) (a b : nat) :
  PyStr.slice s (Z.of_nat a) (Z.of_nat b) = substring a (b - a) s.
Proof.
unfold PyStr.slice, PyStr.clamp.
destruct (Z.ltb_spec (Z.of_nat a) 0); [lia|].
destruct (Z.ltb_spec (Z.of_nat b) 0); [lia|].
rewrite <- !Nat2Z.inj_min, Nat2Z.id.
replace (Z.to_nat (Z.of_nat (Nat.min b (length s)) - Z.of_nat (Nat.min a (length s))))
  with (Nat.min b (length s) - Nat.min a (length s)) by lia.
clear. revert a b; induction s as [|x s IH]; intros a b.
- destruct a, b; reflexivity.
- destruct a as [|a], b as [|b]; simpl length.
  + reflexivity.
  + rewrite Nat.min_0_l, !Nat.sub_0_r. rewrite <- Nat.succ_min_distr. simpl.
    f_equal. specialize (IH 0 b). rewrite Nat.min_0_l, !Nat.sub_0_r in IH.
    exact IH.
  + rewrite Nat.min_0_l. simpl. now rewrite !substring_zero_len.
  + rewrite <- !Nat.succ_min_distr. simpl. apply IH.
Qed.

(** [split] never returns the empty list. *)
Lemma split_aux_nonempty (sep s cur : string) (skip : nat) :
  PyStr.split_aux sep skip cur s <> [].
Proof.
revert skip cur; induction s as [|x s IH]; intros skip cur;
  cbn [PyStr.split_aux].
- discriminate.
- destruct skip; [destruct (prefix sep (String x s))|];
    solve [apply IH | discriminate].
Qed.

Lemma tag_parts_nonempty (s : string) : _tag_parts s <> [].
Proof.
unfold _tag_parts, PyStr.split. intros H. apply map_eq_nil in H.
now apply split_aux_nonempty in H.
Qed.

Lemma type_tokens_nonempty (s : string) : nonempty (type_tokens_of s) = true.
Proof.
unfold type_tokens_of, PyStr.split.
destruct (PyStr.split_aux " or " 0 "" s) eqn:E; [|reflexivity].
now apply split_aux_nonempty in E.
Qed.

Lemma mem_In (x : string) (xs : list string) : PyStr.mem x xs = true <-> In x xs.
Proof.
unfold PyStr.mem. rewrite existsb_exists. split.
- intros [y [Hy Heq]]. apply String.eqb_eq in Heq. now subst.
- intros H. exists x. split; [exact H|apply String.eqb_refl].
Qed.

(** Decimal rendering of list indices is injective. *)
Lemma of_nat_inj (i j : nat) : PyStr.of_nat i = PyStr.of_nat j -> i = j.
Proof.
unfold PyStr.of_nat. intros H.
apply Unsigned.to_uint_inj.
assert (Hs : forall d, NilEmpty.uint_of_string (NilEmpty.string_of_uint d) = Some d)
  by apply NilEmpty.usu.
apply (f_equal NilEmpty.uint_of_string) in H. rewrite !Hs in H. congruence.
Qed.

Lemma elem_path_inj (fp : string) (i j : nat) :
  elem_path fp i = elem_path fp j -> i = j.
Proof.
unfold elem_path. intros H. apply app_str_inv_head in H.
simpl in H. injection H as H.
apply app_str_inv_last in H. now apply of_nat_inj.
Qed.

(** ** Induction over schema values *)

Lemma schema_ind_aux (P : json -> Prop) :
  (forall j, (forall items, j <> JDict items) -> P j) ->
  (forall items,
     (forall key schema_value, In (key, schema_value) items -> P schema_value) ->
     (forall key template rest,
        In (key, JList (template :: rest)) items -> P template) ->
     P (JDict items)) ->
  forall j,
    P j /\ forall template rest, j = JList (template :: rest) -> P template.
Proof.
intros P_other P_dict.
fix IH 1. intros j. destruct j as [ | b | n | x | s | elems | items].
1-5: split; [apply P_other; discriminate | discriminate].
- split; [apply P_other; discriminate|].
  intros template rest E. destruct elems as [|t r]; [discriminate|].
  destruct (IH t) as [Ht _]. injection E as <- <-. exact Ht.
- split; [|discriminate]. apply P_dict.
  + induction items as [|[k v] items IHitems]; simpl; intros key sv Hin;
      [contradiction|].
    destruct (IH v) as [Hv _]. destruct Hin as [E|Hin].
    * injection E as _ <-. exact Hv.
    * now apply (IHitems key sv).
  + induction items as [|[k v] items IHitems]; simpl; intros key t rest Hin;
      [contradiction|].
    destruct (IH v) as [_ Hv]. destruct Hin as [E|Hin].
    * injection E as _ E. now apply (Hv t rest).
    * now apply (IHitems key t rest).
Qed.

(** Induction on a schema: a property that holds of every value that is
    not a dict, and of a dict as soon as it holds of the values of its
    fields and of the templates of its list fields, holds of every
    value. *)
Lemma schema_ind (P : json -> Prop) :
  (forall j, (forall items, j <> JDict items) -> P j) ->
  (forall items,
     (forall key schema_value, In (key, schema_value) items -> P schema_value) ->
     (forall key template rest,
        In (key, JList (template :: rest)) items -> P template) ->
     P (JDict items)) ->
  forall j, P j.
Proof. intros H1 H2 j. now apply schema_ind_aux. Qed.

(** ** The validator only appends *)

Lemma validate_dict_unfold (d items : list (string * json))
  (violations : list violation) (path : string) :
  _validate (JDict d) (JDict items) violations path =
  fold_left (fun vs kv => validate_field _validate d (fst kv) (snd kv) vs path)
            items violations.
Proof.
simpl. revert violations.
induction items as [|[key schema_value] items IH]; intros violations; simpl.
- reflexivity.
- apply IH.
Qed.

Lemma extends_id : extends (fun vs => vs).
Proof. intros vs. now rewrite app_nil_r. Qed.

Lemma extends_append (f : string) (d : json) (t : exn_class) :
  extends (fun vs => append vs f d t).
Proof. intros vs. reflexivity. Qed.

Lemma extends_compose (f g : list violation -> list violation) :
  extends f -> extends g -> extends (fun vs => g (f vs)).
Proof.
intros Hf Hg vs. rewrite (Hg (f vs)), (Hg (f [])), (Hf vs).
now rewrite app_assoc.
Qed.

Lemma extends_fold {A : Type} (step : list violation -> A -> list violation)
  (xs : list A) :
  (forall x, In x xs -> extends (fun vs => step vs x)) ->
  extends (fun vs => fold_left step xs vs).
Proof.
induction xs as [|x xs IH]; intros H; simpl.
- apply extends_id.
- apply (extends_compose (fun vs => step vs x) (fun vs => fold_left step xs vs)).
  + apply H. now left.
  + apply IH. intros y Hy. apply H. now right.
Qed.

Lemma check_non_empty_extends (key fp : string) (sv : json) (elems : list json) :
  extends (check_non_empty key fp sv elems).
Proof.
unfold check_non_empty.
destruct (must_be_non_empty key && Nat.eqb (List.length elems) 0).
- apply extends_append.
- apply extends_id.
Qed.

Lemma check_elems_extends (allowed : list pytype) (fp : string) (sv : json)
  (elems : list json) :
  forall i, extends (check_elems allowed fp sv i elems).
Proof.
induction elems as [|elem rest IH]; intros i; simpl.
- apply extends_id.
- destruct (negb (isinstance_any elem allowed)).
  + apply (extends_compose (fun vs => append vs (elem_path fp i) sv TypeError)
             (check_elems allowed fp sv (S i) rest)).
    * apply extends_append.
    * apply IH.
  + apply IH.
Qed.

Lemma each_item_extends
  (call : json -> list violation -> string -> list violation)
  (fp : string) (elems : list json) :
  (forall item p, extends (fun vs => call item vs p)) ->
  forall i, extends (each_item call fp i elems).
Proof.
intros Hcall. induction elems as [|item rest IH]; intros i; simpl.
- apply extends_id.
- apply (extends_compose (fun vs => call item vs (elem_path fp i))
           (each_item call fp (S i) rest)).
  + apply Hcall.
  + apply IH.
Qed.

Lemma validate_field_extends
  (self : json -> json -> list violation -> string -> list violation)
  (d : list (string * json)) (key : string) (sv : json) (path : string) :
  (forall v p, extends (fun vs => self v sv vs p)) ->
  (forall template rest, sv = JList (template :: rest) ->
     forall v p, extends (fun vs => self v template vs p)) ->
  extends (fun vs => validate_field self d key sv vs path).
Proof.
intros Hself Htemplate. unfold validate_field.
destruct (_classify sv); try apply extends_id;
  (destruct (lookup key d) as [v|]; [|apply extends_append]).
- destruct v; try apply extends_append; apply extends_id.
- apply extends_id.
- destruct sv; try apply extends_id.
  destruct (negb _); [apply extends_append|apply extends_id].
- destruct (negb _); [apply extends_append|apply Hself].
- destruct v; try apply extends_append.
  destruct (PyStr.truthy _); [destruct (nonempty _)|].
  + apply (extends_compose (check_non_empty _ _ _ _) (check_elems _ _ _ _ _)).
    * apply check_non_empty_extends.
    * apply check_elems_extends.
  + apply check_non_empty_extends.
  + apply check_non_empty_extends.
- destruct v; try apply extends_append.
  destruct sv as [ | | | | | [|template rest] | ];
    try apply check_non_empty_extends.
  apply (extends_compose (check_non_empty _ _ _ _) (each_item _ _ _ _)).
  + apply check_non_empty_extends.
  + apply each_item_extends. intros item p. now apply (Htemplate template rest).
Qed.

(** [_validate] leaves the violations it is given in place and appends
    to them what it would append to an empty list. *)
Lemma validate_extends (schema : json) :
  forall data path, extends (fun vs => _validate data schema vs path).
Proof.
induction schema as [j Hj | items IHfield IHtemplate] using schema_ind;
  intros data path.
- destruct j as [ | | | | | | its]; try (now destruct (Hj its));
    destruct data; first [apply extends_append | apply extends_id].
- destruct data as [ | | | | | | d]; try apply extends_append.
  intros vs. rewrite !validate_dict_unfold. revert vs.
  apply (extends_fold (fun vs kv => validate_field _validate d (fst kv) (snd kv) vs path)).
  intros [key sv] Hin. simpl. apply validate_field_extends.
  + intros v p. now apply (IHfield key).
  + intros template rest -> v p. now apply (IHtemplate key template rest).
Qed.

Lemma validate_field_app (d : list (string * json)) (key : string) (sv : json)
  (vs : list violation) (path : string) :
  validate_field _validate d key sv vs path =
  vs ++ validate_field _validate d key sv [] path.
Proof.
apply (validate_field_extends _validate d key sv path).
- intros v p. apply validate_extends.
- intros template rest _ v p. apply validate_extends.
Qed.

(** ** Shapes of classified schema values *)

Lemma classify_str_cases (s : string) :
  _classify (JStr s) = k_auto \/ _classify (JStr s) = k_optional \/
  _classify (JStr s) = k_required_list_str \/ _classify (JStr s) = k_required_any \/
  _classify (JStr s) = k_required_numeric \/ _classify (JStr s) = k_required_str.
Proof.
unfold _classify.
repeat match goal with
       | |- context [if ?b then _ else _] => destruct b
       end; tauto.
Qed.

Lemma classify_dict (sv : json) :
  _classify sv = k_required_dict -> exists items, sv = JDict items.
Proof.
destruct sv as [ | | | | s | [|[ | | | | t | | ] rest] | items]; try discriminate.
- destruct (classify_str_cases s) as [E|[E|[E|[E|[E|E]]]]]; rewrite E; discriminate.
- simpl. destruct (_ || _); discriminate.
- intros _. now exists items.
Qed.

Lemma classify_list_dict (sv : json) :
  _classify sv = k_required_list_dict ->
  exists items rest, sv = JList (JDict items :: rest).
Proof.
destruct sv as [ | | | | s | [|[ | | | | t | | items] rest] | ]; try discriminate.
- destruct (classify_str_cases s) as [E|[E|[E|[E|[E|E]]]]]; rewrite E; discriminate.
- simpl. destruct (_ || _); discriminate.
- intros _. now exists items, rest.
Qed.

Lemma classify_numeric (sv : json) :
  _classify sv = k_required_numeric -> exists s, sv = JStr s.
Proof.
destruct sv as [ | | | | s | [|[ | | | | t | | ] rest] | ]; try discriminate.
- intros _. now exists s.
- simpl. destruct (_ || _); discriminate.
Qed.

Lemma classify_list_str (sv : json) :
  _classify sv = k_required_list_str ->
  (exists s, sv = JStr s) \/ (exists s rest, sv = JList (JStr s :: rest)).
Proof.
destruct sv as [ | | | | s | [|[ | | | | t | | ] rest] | ]; try discriminate.
- intros _. left. now exists s.
- intros _. right. now exists t, rest.
Qed.

(** A value that is not a dict is reported once, whatever the schema. *)
Lemma validate_not_dict (data schema : json) (vs : list violation) (path : string) :
  isinstance data py_dict = false ->
  _validate data schema vs path = append vs path item_desc TypeError.
Proof.
intros H. destruct data; try discriminate; destruct schema; reflexivity.
Qed.

(** ** Claims about single fields *)

(** C4: a field of a required kind whose key is absent from the record
    gets exactly one MissingField violation, at its dotted path and with
    its schema value, and nothing else. *)
Theorem missing_required_field (d : list (string * json)) (key : string)
  (schema_value : json) (violations : list violation) (path : string) :
  _classify schema_value <> k_auto ->
  _classify schema_value <> k_optional ->
  lookup key d = None ->
  validate_field _validate d key schema_value violations path =
  violations ++ [Violation (field_path_of path key) schema_value MissingField].
Proof.
intros Hauto Hopt Hmiss. unfold validate_field. rewrite Hmiss.
destruct (_classify schema_value); solve [congruence | reflexivity].
Qed.

Lemma missing_required_field_witness :
  _classify (JDict [("email", JStr "contact")]) <> k_auto /\
  _classify (JDict [("email", JStr "contact")]) <> k_optional /\
  lookup "contact" [("title", JStr "t")] = None /\
  validate_field _validate [("title", JStr "t")] "contact"
    (JDict [("email", JStr "contact")]) [] "meta" =
  [Violation "meta.contact" (JDict [("email", JStr "contact")]) MissingField].
Proof.
split; [discriminate|]. split; [discriminate|]. split; [reflexivity|].
apply (missing_required_field [("title", JStr "t")] "contact"
         (JDict [("email", JStr "contact")]) [] "meta");
  [discriminate | discriminate | reflexivity].
Defined.

(** C5: a present field of kind required_str yields one NullOrEmptyValue
    violation when its value is null, one TypeMismatch violation when its
    value is neither null nor a string, and no violation when its value is
    a string. *)
Theorem required_str_present (d : list (string * json)) (key : string)
  (schema_value v : json) (violations : list violation) (path : string) :
  _classify schema_value = k_required_str ->
  lookup key d = Some v ->
  validate_field _validate d key schema_value violations path =
  match v with
  | JNull =>
      violations ++ [Violation (field_path_of path key) schema_value NullOrEmptyValue]
  | JStr _ => violations
  | _ =>
      violations ++ [Violation (field_path_of path key) schema_value TypeMismatch]
  end.
Proof.
intros Hkind Hv. unfold validate_field. rewrite Hkind, Hv.
destruct v; reflexivity.
Qed.

Lemma required_str_present_witness :
  _classify (JStr "title text") = k_required_str /\
  lookup "title" [("title", JNull)] = Some JNull /\
  validate_field _validate [("title", JNull)] "title" (JStr "title text") [] "" =
  [Violation "title" (JStr "title text") NullOrEmptyValue].
Proof.
split; [reflexivity|]. split; [reflexivity|].
apply (required_str_present [("title", JNull)] "title" (JStr "title text")
         JNull [] ""); reflexivity.
Defined.

(** C6: a record that is not an object gets exactly one TypeMismatch
    violation at the current path, independently of the schema (nothing
    of the schema is traversed), and the entry point returns the pair
    [(false, violations)] for it. *)
Theorem non_object_record (data : json) (schema : json)
  (violations : list violation) (path : string)
  (file : list (string * json)) (cache : option (list (string * json))) :
  isinstance data py_dict = false ->
  _validate data schema violations path =
    violations ++ [Violation path item_desc TypeMismatch] /\
  fst (validate_entry file cache data) =
    (false, [Violation "" item_desc TypeMismatch]).
Proof.
intros H. split.
- now apply validate_not_dict.
- unfold validate_entry. destruct (_load_schema file cache) as [schema' cache'].
  rewrite validate_not_dict by exact H. reflexivity.
Qed.

Lemma non_object_record_witness :
  isinstance (JList [JInt 1]) py_dict = false /\
  _validate (JList [JInt 1]) (JDict example_schema) [] "" =
    [Violation "" item_desc TypeMismatch] /\
  fst (validate_entry example_schema None (JList [JInt 1])) =
    (false, [Violation "" item_desc TypeMismatch]).
Proof.
split; [reflexivity|].
apply (non_object_record (JList [JInt 1]) (JDict example_schema) [] ""
         example_schema None).
reflexivity.
Defined.

(** C1: the example of the specification. The record has three
    violations, in the order TypeMismatch at [title], TypeMismatch at
    [scores[0]], NullOrEmptyValue at [tags_content]; the entry point
    reports [false]; the absent auto-tagged field [id] is skipped. *)
Theorem example_violations :
  fst (validate_entry example_schema None example_record) =
    (false,
     [ Violation "title" (JStr "title text") TypeMismatch;
       Violation "scores[0]" (JList [JStr "[int or float] a score"]) TypeMismatch;
       Violation "tags_content" (JList [JStr "tag text"]) NullOrEmptyValue ]) /\
  (forall file,
     validate_entry file (Some example_schema) example_record =
     validate_entry example_schema None example_record) /\
  _classify (JStr "[auto] id") = k_auto /\
  lookup "id" example_items = None.
Proof.
split; [vm_compute; reflexivity|]. split; [reflexivity|].
split; [vm_compute; reflexivity|reflexivity].
Qed.

(** ** Tags *)

(** The slice taken by [_tag_parts] when [find('] ')] succeeds. *)
Lemma tag_parts_of_close (s : string) (c : nat) :
  index 0 "] " s = Some c ->
  _tag_parts s = map PyStr.strip (PyStr.split "," (substring 1 (c - 1) s)).
Proof.
intros H. unfold _tag_parts, PyStr.find. rewrite H.
destruct (Z.eqb_spec (Z.of_nat c) (-1)); [lia|].
change 1%Z with (Z.of_nat 1). now rewrite slice_nat.
Qed.

(** The slice taken by [_tag_parts] when only [rfind(']')] succeeds. *)
Lemma tag_parts_of_rclose (s : string) (c : nat) :
  index 0 "] " s = None ->
  PyStr.rindex 0 "]" s = Some c ->
  _tag_parts s = map PyStr.strip (PyStr.split "," (substring 1 (c - 1) s)).
Proof.
intros H1 H2. unfold _tag_parts, PyStr.find, PyStr.rfind. rewrite H1, H2.
simpl Z.eqb. cbv iota.
change 1%Z with (Z.of_nat 1). now rewrite slice_nat.
Qed.

Ltac tag_parts_compute :=
  match goal with
  | |- _tag_parts ?s = _ =>
      first
        [ erewrite (tag_parts_of_close s) by (lazy; reflexivity)
        | erewrite (tag_parts_of_rclose s) by (lazy; reflexivity) ];
      lazy; reflexivity
  end.

Lemma tag_parts_int_or_float (s : string) :
  tagged "int or float" s -> _tag_parts s = ["int or float"].
Proof. intros [->|[desc ->]]; [|destruct desc]; tag_parts_compute. Qed.

Lemma tag_parts_bool (s : string) : tagged "bool" s -> _tag_parts s = ["bool"].
Proof. intros [->|[desc ->]]; [|destruct desc]; tag_parts_compute. Qed.

Lemma tag_parts_float (s : string) : tagged "float" s -> _tag_parts s = ["float"].
Proof. intros [->|[desc ->]]; [|destruct desc]; tag_parts_compute. Qed.

Lemma tag_parts_int (s : string) : tagged "int" s -> _tag_parts s = ["int"].
Proof. intros [->|[desc ->]]; [|destruct desc]; tag_parts_compute. Qed.

Lemma tag_parts_list_float (s : string) :
  tagged "list[float]" s -> _tag_parts s = ["list[float]"].
Proof. intros [->|[desc ->]]; [|destruct desc]; tag_parts_compute. Qed.

Lemma tag_parts_upper_auto (s : string) : tagged "AUTO" s -> _tag_parts s = ["AUTO"].
Proof. intros [->|[desc ->]]; [|destruct desc]; tag_parts_compute. Qed.

Lemma tag_parts_upper_optional (s : string) :
  tagged "OPTIONAL" s -> _tag_parts s = ["OPTIONAL"].
Proof. intros [->|[desc ->]]; [|destruct desc]; tag_parts_compute. Qed.

(** ** Numeric fields *)

Lemma numeric_valid_alt (tokens : list string) (v : json) :
  numeric_valid tokens v =
  (PyStr.mem "bool" tokens && is_boolean v)
  || (PyStr.mem "int" tokens && (is_integer v && negb (is_boolean v)))
  || (PyStr.mem "float" tokens
      && ((is_integer v || is_float v) && negb (is_boolean v))).
Proof.
unfold numeric_valid.
destruct v, (PyStr.mem "bool" tokens), (PyStr.mem "int" tokens),
  (PyStr.mem "float" tokens); reflexivity.
Qed.

(** The three [if] statements compute "some allowed token's predicate
    matches". *)
Lemma numeric_valid_spec (tokens : list string) (v : json) :
  numeric_valid tokens v = existsb (fun t => token_accepts t v) tokens.
Proof.
apply eq_true_iff_eq.
rewrite numeric_valid_alt, existsb_exists, !orb_true_iff, !andb_true_iff, !mem_In.
split.
- intros [[[Hin Hp]|[Hin Hp]]|[Hin Hp]]; eexists; (split; [exact Hin|]);
    unfold token_accepts; simpl; now rewrite ?andb_true_iff.
- intros [t [Hin Hacc]]. unfold token_accepts in Hacc.
  destruct (String.eqb_spec t "bool") as [->|_]; [now left; left|].
  destruct (String.eqb_spec t "int") as [->|_];
    [left; right; now rewrite <- andb_true_iff|].
  destruct (String.eqb_spec t "float") as [->|_];
    [right; now rewrite <- andb_true_iff|discriminate].
Qed.

Lemma numeric_field_eq (d : list (string * json)) (key s : string) (v : json)
  (vs : list violation) (path : string) :
  _classify (JStr s) = k_required_numeric ->
  lookup key d = Some v ->
  validate_field _validate d key (JStr s) vs path =
  if existsb (fun t => token_accepts t v)
       (type_tokens_of (first_part (_tag_parts s)))
  then vs
  else vs ++ [Violation (field_path_of path key) (JStr s) TypeMismatch].
Proof.
intros Hk Hv. unfold validate_field. rewrite Hk, Hv, numeric_valid_spec.
now destruct (existsb _ _).
Qed.

Ltac numeric_tag Htag :=
  match goal with
  | Hv : lookup _ _ = Some ?v |- _ =>
      rewrite (fun s Hk => numeric_field_eq _ _ s v _ _ Hk Hv);
      [ rewrite Htag; destruct v; reflexivity
      | unfold _classify; rewrite Htag; reflexivity ]
  end.

(** C2: for a scalar field of kind required_numeric the value is accepted
    exactly when the predicate of some allowed token matches it, and a
    rejected value adds one TypeMismatch at the field's dotted path.  A
    field tagged [int or float] accepts integers and floats and rejects
    booleans and strings; a field tagged [bool] accepts only booleans; a
    field tagged [float] accepts integers; a field tagged [int] rejects
    floats. *)
Theorem numeric_field_acceptance (d : list (string * json)) (key : string)
  (v : json) (violations : list violation) (path : string) :
  lookup key d = Some v ->
  let out := fun s => validate_field _validate d key (JStr s) violations path in
  let rejected := fun s =>
    violations ++ [Violation (field_path_of path key) (JStr s) TypeMismatch] in
  (forall s, _classify (JStr s) = k_required_numeric ->
     out s =
     if existsb (fun t => token_accepts t v)
          (type_tokens_of (first_part (_tag_parts s)))
     then violations else rejected s) /\
  (forall s, tagged "int or float" s ->
     out s = match v with JInt _ | JFloat _ => violations | _ => rejected s end) /\
  (forall s, tagged "bool" s ->
     out s = match v with JBool _ => violations | _ => rejected s end) /\
  (forall s, tagged "float" s ->
     out s = match v with JInt _ | JFloat _ => violations | _ => rejected s end) /\
  (forall s, tagged "int" s ->
     out s = match v with JInt _ => violations | _ => rejected s end).
Proof.
intros Hv out rejected. subst out rejected. cbv beta.
split; [intros s Hk; now apply numeric_field_eq|].
split; [intros s Hs; apply tag_parts_int_or_float in Hs; numeric_tag Hs|].
split; [intros s Hs; apply tag_parts_bool in Hs; numeric_tag Hs|].
split; [intros s Hs; apply tag_parts_float in Hs; numeric_tag Hs|].
intros s Hs; apply tag_parts_int in Hs; numeric_tag Hs.
Qed.

Lemma numeric_field_acceptance_witness :
  lookup "score" [("score", JInt 3)] = Some (JInt 3) /\
  tagged "int or float" "[int or float] score" /\
  validate_field _validate [("score", JInt 3)] "score"
    (JStr "[int or float] score") [] "" = [].
Proof.
split; [reflexivity|].
assert (Ht : tagged "int or float" "[int or float] score")
  by (right; now exists "score").
split; [exact Ht|].
destruct (numeric_field_acceptance [("score", JInt 3)] "score" (JInt 3) [] ""
            eq_refl) as [_ [H _]].
exact (H "[int or float] score" Ht).
Defined.

(** The four values of the specification's example for [int or float]. *)
Example int_or_float_values :
  let check v :=
    validate_field _validate [("score", v)] "score"
      (JStr "[int or float] score") [] "" in
  let mismatch :=
    [Violation "score" (JStr "[int or float] score") TypeMismatch] in
  check (JInt 3) = [] /\
  check (JFloat (QArith_base.Qmake 7 2)) = [] /\
  check (JBool true) = mismatch /\
  check (JStr "3") = mismatch.
Proof. repeat split; vm_compute; reflexivity. Qed.

(** ** Modifier tokens *)

Lemma classify_auto_iff (s : string) :
  _classify (JStr s) = k_auto <-> In "auto" (_tag_parts s).
Proof.
rewrite <- mem_In. unfold _classify.
destruct (PyStr.mem "auto" (_tag_parts s)); [tauto|].
split; [|discriminate].
repeat match goal with
       | |- context [if ?b then _ else _] => destruct b
       end; discriminate.
Qed.

Lemma classify_optional_iff (s : string) :
  _classify (JStr s) = k_optional <->
  ~ In "auto" (_tag_parts s) /\ In "optional" (_tag_parts s).
Proof.
rewrite <- !mem_In. unfold _classify.
destruct (PyStr.mem "auto" (_tag_parts s)).
- split; [discriminate|]. intros [H _]. now destruct H.
- destruct (PyStr.mem "optional" (_tag_parts s)).
  + split; [|reflexivity]. intros _. split; [discriminate|reflexivity].
  + split; [|intros [_ H]; discriminate].
    repeat match goal with
           | |- context [if ?b then _ else _] => destruct b
           end; discriminate.
Qed.

(** C10: tag tokens are matched case-sensitively.  A string is classified
    auto exactly when one of its tokens is the lowercase [auto], and
    optional exactly when none is [auto] and one is the lowercase
    [optional]; a string tagged [AUTO] or [OPTIONAL] is of kind
    required_str, and its field is demanded: when the key is absent a
    MissingField violation is recorded. *)
Theorem tag_tokens_case_sensitive (d : list (string * json)) (key : string)
  (violations : list violation) (path : string) :
  lookup key d = None ->
  (forall s, _classify (JStr s) = k_auto <-> In "auto" (_tag_parts s)) /\
  (forall s, _classify (JStr s) = k_optional <->
             ~ In "auto" (_tag_parts s) /\ In "optional" (_tag_parts s)) /\
  (forall s, tagged "AUTO" s \/ tagged "OPTIONAL" s ->
     _classify (JStr s) = k_required_str /\
     validate_field _validate d key (JStr s) violations path =
     violations ++ [Violation (field_path_of path key) (JStr s) MissingField]).
Proof.
intros Hmiss. split; [exact classify_auto_iff|].
split; [exact classify_optional_iff|].
intros s Hs.
assert (Hk : _classify (JStr s) = k_required_str).
{ destruct Hs as [Hs|Hs];
    [apply tag_parts_upper_auto in Hs|apply tag_parts_upper_optional in Hs];
    unfold _classify; rewrite Hs; reflexivity. }
split; [exact Hk|].
unfold validate_field. now rewrite Hk, Hmiss.
Qed.

Lemma tag_tokens_case_sensitive_witness :
  lookup "id" example_items = None /\
  _tag_parts "[AUTO] id" = ["AUTO"] /\
  _classify (JStr "[AUTO] id") = k_required_str /\
  validate_field _validate example_items "id" (JStr "[AUTO] id") [] "" =
  [Violation "id" (JStr "[AUTO] id") MissingField].
Proof.
split; [reflexivity|]. split; [reflexivity|].
destruct (tag_tokens_case_sensitive example_items "id" [] "" eq_refl)
  as [_ [_ H]].
apply (H "[AUTO] id"). left. right. now exists "id".
Defined.

(** ** Tag grammar *)

Lemma prefix_nil (s : string) : prefix "" s = true.
Proof. now destruct s. Qed.

Lemma prefix_spec (p s : string) :
  prefix p s = true <-> exists rest, (s = p ++ rest)%string.
Proof.
revert s; induction p as [|a p IH]; intros s.
- rewrite prefix_nil. split; [intros _; now exists s|reflexivity].
- destruct s as [|b s]; simpl.
  + split; [discriminate|intros [rest E]; discriminate].
  + destruct (ascii_dec a b) as [->|Hab].
    * rewrite IH. split; intros [rest E]; exists rest; [now rewrite E|].
      now injection E.
    * split; [discriminate|]. intros [rest E]. injection E as E1 E2.
      now destruct Hab.
Qed.

Lemma forallb_false_witness {A : Type} (f : A -> bool) (l : list A) :
  forallb f l = false -> exists x, In x l /\ f x = false.
Proof.
induction l as [|a l IH]; simpl; [discriminate|].
destruct (f a) eqn:E.
- intros H. destruct (IH H) as [x [Hin Hx]]. exists x. tauto.
- intros _. exists a. tauto.
Qed.

Lemma subset_numeric_true (tokens : list string) :
  subset_numeric tokens = true <->
  forall t, In t tokens -> In t ["int"; "float"; "bool"].
Proof.
unfold subset_numeric. rewrite forallb_forall.
split; intros H t Ht; apply mem_In; auto.
Qed.

(** [_classify] on a string follows the rules of the specification on the
    tokens that [_tag_parts] extracts. *)
Lemma classify_spec_kind (s : string) :
  spec_kind (_tag_parts s) (_classify (JStr s)).
Proof.
unfold _classify.
destruct (PyStr.mem "auto" (_tag_parts s)) eqn:Ea.
{ apply rule_auto. now apply mem_In. }
assert (Ha : ~ In "auto" (_tag_parts s)) by (rewrite <- mem_In; congruence).
destruct (PyStr.mem "optional" (_tag_parts s)) eqn:Eo.
{ apply rule_optional; [exact Ha|now apply mem_In]. }
assert (Ho : ~ In "optional" (_tag_parts s)) by (rewrite <- mem_In; congruence).
pose proof (tag_parts_nonempty s) as Hne.
destruct (_tag_parts s) as [|first rest]; [now destruct Hne|].
unfold first_part, hd.
destruct (PyStr.startswith "list[" first) eqn:El.
{ apply (rule_list _ first); auto. now apply prefix_spec. }
assert (Hl : ~ (exists r, first = "list[" ++ r)%string).
{ intros H. apply prefix_spec in H. unfold PyStr.startswith in El. congruence. }
destruct (String.eqb_spec first "any") as [Hany|Hany].
{ now apply (rule_any _ first). }
rewrite type_tokens_nonempty. cbn [andb].
destruct (subset_numeric (type_tokens_of first)) eqn:En.
- apply (rule_numeric _ first); auto. now apply subset_numeric_true.
- apply (rule_str _ first); auto.
  apply forallb_false_witness in En. destruct En as [t [Hin Ht]].
  exists t. split; [exact Hin|]. rewrite <- mem_In. congruence.
Qed.

(** The tag that [_tag_parts] reads: the slice from index 1 to the
    closing position. *)
Lemma tag_parts_of_spec_close (s : string) (c : nat) :
  spec_close s = Some c ->
  _tag_parts s = spec_tokens (substring 1 (c - 1) s).
Proof.
intros Hc. unfold spec_close in Hc.
destruct (index 0 "] " s) as [c'|] eqn:E.
- injection Hc as ->. now apply tag_parts_of_close.
- now apply tag_parts_of_rclose.
Qed.

(** C7: for every tagged string, that is a string that begins with its
    bracketed tag, the extracted tag is the substring between the first
    ["["] of the string and the first ["] "] (or, when there is no ["] "],
    the last ["]"]); it is split on commas and each token is trimmed;
    classification applies the rules in order to these tokens: a token
    [auto] gives auto, else a token [optional] gives optional, else the
    first token decides ([list[] prefix, [any], numeric set, else
    required_str). *)
Theorem tag_grammar (s rest tag : string) :
  s = String "[" rest ->
  spec_tag s = Some tag ->
  index 0 "[" s = Some 0 /\
  _tag_parts s = spec_tokens tag /\
  spec_kind (spec_tokens tag) (_classify (JStr s)).
Proof.
intros -> Htag.
assert (Ho : index 0 "[" (String "[" rest) = Some 0).
{ simpl. destruct (ascii_dec "[" "[") as [_|H]; [|now destruct H].
  now rewrite prefix_nil. }
assert (Hparts : _tag_parts (String "[" rest) = spec_tokens tag).
{ unfold spec_tag in Htag. rewrite Ho in Htag.
  destruct (spec_close (String "[" rest)) as [c|] eqn:Ec; [|discriminate].
  injection Htag as <-. now rewrite (tag_parts_of_spec_close _ c Ec). }
split; [exact Ho|]. split; [exact Hparts|].
rewrite <- Hparts. apply classify_spec_kind.
Qed.

Lemma tag_grammar_witness :
  spec_tag "[int, optional] weight" = Some "int, optional" /\
  _tag_parts "[int, optional] weight" = ["int"; "optional"] /\
  spec_kind ["int"; "optional"] (_classify (JStr "[int, optional] weight")).
Proof.
split; [reflexivity|].
destruct (tag_grammar "[int, optional] weight" "int, optional] weight"
            "int, optional" eq_refl eq_refl) as [_ H].
exact H.
Defined.

(** A string whose first ["["] is not its first character is not a
    tagged string: [_tag_parts] still reads from index 1 and does not look
    for the bracket. *)
Example bracket_not_searched :
  spec_tag "see [auto] note" = Some "auto" /\
  _tag_parts "see [auto] note" = ["ee [auto"] /\
  _classify (JStr "see [auto] note") = k_required_str.
Proof. repeat split; reflexivity. Qed.

(** ** Where violations come from *)

Lemma fold_extends_in {A : Type} (step : list violation -> A -> list violation)
  (xs : list A) (v : violation) :
  (forall x, In x xs -> extends (fun vs => step vs x)) ->
  forall vs, In v (fold_left step xs vs) ->
  In v vs \/ exists x, In x xs /\ In v (step [] x).
Proof.
induction xs as [|x xs IH]; intros Hext vs Hin; simpl in Hin.
- now left.
- destruct (IH (fun y Hy => Hext y (or_intror Hy)) _ Hin) as [H|[y [Hy H]]].
  + rewrite (Hext x (or_introl eq_refl) vs) in H.
    apply in_app_or in H. destruct H as [H|H]; [now left|].
    right. exists x. split; [now left|exact H].
  + right. exists y. split; [now right|exact H].
Qed.

Lemma check_elems_eq (allowed : list pytype) (fp : string) (sv : json)
  (elems : list json) :
  forall i vs,
  check_elems allowed fp sv i elems vs = vs ++ elem_mismatches allowed fp sv i elems.
Proof.
induction elems as [|elem rest IH]; intros i vs; simpl.
- now rewrite app_nil_r.
- rewrite IH. destruct (isinstance_any elem allowed); simpl.
  + reflexivity.
  + unfold append. now rewrite <- app_assoc.
Qed.

Lemma elem_mismatches_in (allowed : list pytype) (fp : string) (sv : json)
  (elems : list json) (v : violation) :
  forall i, In v (elem_mismatches allowed fp sv i elems) ->
  exists k elem, nth_error elems k = Some elem /\
                 isinstance_any elem allowed = false /\
                 v = Violation (elem_path fp (i + k)) sv TypeMismatch.
Proof.
induction elems as [|elem rest IH]; intros i Hin; simpl in Hin; [contradiction|].
apply in_app_or in Hin. destruct Hin as [Hin|Hin].
- destruct (isinstance_any elem allowed) eqn:E; [contradiction|].
  destruct Hin as [<-|[]]. exists 0, elem. now rewrite Nat.add_0_r.
- destruct (IH _ Hin) as [k [e [Hk [He Hv]]]].
  exists (S k), e. split; [exact Hk|]. split; [exact He|].
  now rewrite Nat.add_succ_r.
Qed.

Lemma elem_mismatches_nth (allowed : list pytype) (fp : string) (sv : json)
  (elems : list json) :
  forall i k elem, nth_error elems k = Some elem ->
  isinstance_any elem allowed = false ->
  In (Violation (elem_path fp (i + k)) sv TypeMismatch)
     (elem_mismatches allowed fp sv i elems).
Proof.
induction elems as [|e rest IH]; intros i [|k] elem Hk He; simpl in Hk;
  try discriminate; simpl; apply in_or_app.
- injection Hk as ->. rewrite He, Nat.add_0_r. left. now left.
- right. rewrite Nat.add_succ_r. now apply (IH (S i) k elem).
Qed.

Lemma each_item_in
  (call : json -> list violation -> string -> list violation)
  (fp : string) (elems : list json) (v : violation) :
  (forall item p, extends (fun vs => call item vs p)) ->
  forall i vs, In v (each_item call fp i elems vs) ->
  In v vs \/ exists k item, nth_error elems k = Some item /\
                            In v (call item [] (elem_path fp (i + k))).
Proof.
intros Hcall. induction elems as [|item rest IH]; intros i vs Hin; simpl in Hin.
- now left.
- destruct (IH _ _ Hin) as [H|[k [it [Hk H]]]].
  + rewrite (Hcall item (elem_path fp i) vs) in H.
    apply in_app_or in H. destruct H as [H|H]; [now left|].
    right. exists 0, item. now rewrite Nat.add_0_r.
  + right. exists (S k), it. now rewrite Nat.add_succ_r.
Qed.

Lemma check_non_empty_in (key fp : string) (sv : json) (elems : list json)
  (v : violation) :
  In v (check_non_empty key fp sv elems []) ->
  v = Violation fp sv NullOrEmptyValue /\ elems = [] /\ must_be_non_empty key = true.
Proof.
unfold check_non_empty.
destruct (must_be_non_empty key); [|contradiction].
destruct elems; [|contradiction].
intros [<-|[]]. auto.
Qed.

(** A present list field: the emptiness check followed by the checks on
    the elements. *)
Lemma list_field_out (d : list (string * json)) (key : string) (sv : json)
  (elems : list json) (vs : list violation) (path : string) :
  _classify sv = k_required_list_str \/ _classify sv = k_required_list_dict ->
  lookup key d = Some (JList elems) ->
  validate_field _validate d key sv vs path =
  vs ++ check_non_empty key (field_path_of path key) sv elems []
     ++ element_checks sv (field_path_of path key) elems.
Proof.
intros Hk Hv. rewrite validate_field_app. f_equal.
unfold validate_field, element_checks.
destruct Hk as [Hk|Hk]; rewrite Hk, Hv.
- destruct (inner_type_str_of sv) as [|c inner] eqn:Ei; cbn [PyStr.truthy].
  + change (allowed_of "") with (@nil pytype). cbn [nonempty].
    now rewrite app_nil_r.
  + destruct (nonempty (allowed_of (String c inner))).
    * apply check_elems_extends.
    * now rewrite app_nil_r.
- destruct (classify_list_dict sv Hk) as [items [rest ->]].
  apply (each_item_extends (fun item => _validate item (JDict items))).
  intros item p. apply validate_extends.
Qed.

Lemma field_path_prefix (path key : string) :
  exists suffix, (field_path_of path key = path ++ suffix)%string.
Proof.
unfold field_path_of. destruct path as [|c path]; simpl.
- now exists key.
- now exists ("." ++ key)%string.
Qed.

Lemma validated_at_prefix (schema : json) (path p : string) :
  validated_at schema path p -> exists suffix, (p = path ++ suffix)%string.
Proof.
induction 1 as [schema path | items path key sub p _ _ [suf IH]
               | items path key template rest i p _ _ [suf IH]].
- exists ""%string. now rewrite app_str_nil_r.
- destruct (field_path_prefix path key) as [s1 E]. rewrite E in IH.
  exists (s1 ++ suf)%string. now rewrite IH, app_str_assoc.
- destruct (field_path_prefix path key) as [s1 E].
  unfold elem_path in IH. rewrite E in IH.
  eexists. rewrite IH, !app_str_assoc. reflexivity.
Qed.

Lemma schema_value_at_prefix (schema : json) (path f : string) (d : json) :
  schema_value_at schema path f d -> exists suffix, (f = path ++ suffix)%string.
Proof.
induction 1 as [items path key sv _ | items path key sv i _
               | items path key sub f d _ _ [suf IH]
               | items path key template rest i f d _ _ [suf IH]].
- apply field_path_prefix.
- destruct (field_path_prefix path key) as [s1 E].
  unfold elem_path. rewrite E. eexists. rewrite !app_str_assoc. reflexivity.
- destruct (field_path_prefix path key) as [s1 E]. rewrite E in IH.
  exists (s1 ++ suf)%string. now rewrite IH, app_str_assoc.
- destruct (field_path_prefix path key) as [s1 E].
  unfold elem_path in IH. rewrite E in IH.
  eexists. rewrite IH, !app_str_assoc. reflexivity.
Qed.

(** Every reported path extends the path the validation started at. *)
Lemma reported_prefix (schema : json) (path : string) (v : violation) :
  reported schema path v -> exists suffix, (field v = path ++ suffix)%string.
Proof.
intros [[H _]|H].
- now apply validated_at_prefix in H.
- now apply schema_value_at_prefix in H.
Qed.

Lemma reported_dict (items sub : list (string * json)) (path key : string)
  (v : violation) :
  In (key, JDict sub) items ->
  reported (JDict sub) (field_path_of path key) v ->
  reported (JDict items) path v.
Proof.
intros Hin [[H1 H2]|H].
- left. split; [|exact H2]. now apply (val_dict items path key sub).
- right. now apply (at_dict items path key sub).
Qed.

Lemma reported_item (items : list (string * json)) (path key : string)
  (template : json) (rest : list json) (i : nat) (v : violation) :
  In (key, JList (template :: rest)) items ->
  reported template (elem_path (field_path_of path key) i) v ->
  reported (JDict items) path v.
Proof.
intros Hin [[H1 H2]|H].
- left. split; [|exact H2]. now apply (val_item items path key template rest i).
- right. now apply (at_item items path key template rest i).
Qed.

Lemma validate_field_reports (items d : list (string * json)) (key : string)
  (sv : json) (path : string) (v : violation) :
  (forall data p w, In w (_validate data sv [] p) -> reported sv p w) ->
  (forall template rest, sv = JList (template :: rest) ->
     forall data p w, In w (_validate data template [] p) -> reported template p w) ->
  In (key, sv) items ->
  In v (validate_field _validate d key sv [] path) ->
  reported (JDict items) path v.
Proof.
intros IHsv IHt Hitem Hin.
assert (Hfield : forall t, reported (JDict items) path
                             (Violation (field_path_of path key) sv t)).
{ intros t. right. now apply at_field. }
destruct (_classify sv) eqn:Hk.
1-5: unfold validate_field in Hin; rewrite Hk in Hin;
     try contradiction;
     destruct (lookup key d) as [x|]; try contradiction;
     try (destruct Hin as [<-|[]]; apply Hfield).
- destruct x; try contradiction; destruct Hin as [<-|[]]; apply Hfield.
- destruct sv; try contradiction.
  destruct (negb _); [|contradiction]. destruct Hin as [<-|[]]; apply Hfield.
- unfold validate_field in Hin. rewrite Hk in Hin.
  destruct (lookup key d) as [x|]; [|destruct Hin as [<-|[]]; apply Hfield].
  destruct (negb _); [destruct Hin as [<-|[]]; apply Hfield|].
  destruct (classify_dict sv Hk) as [sub ->].
  apply (reported_dict items sub path key); [exact Hitem|]. now apply (IHsv x).
- destruct (lookup key d) as [x|] eqn:Hx;
    [|unfold validate_field in Hin; rewrite Hk, Hx in Hin;
      destruct Hin as [<-|[]]; apply Hfield].
  destruct x as [ | | | | | elems | ];
    try (unfold validate_field in Hin; rewrite Hk, Hx in Hin;
         destruct Hin as [<-|[]]; apply Hfield).
  rewrite (list_field_out d key sv elems [] path (or_introl Hk) Hx) in Hin.
  simpl in Hin. apply in_app_or in Hin. destruct Hin as [Hin|Hin].
  + apply check_non_empty_in in Hin. destruct Hin as [-> _]. apply Hfield.
  + unfold element_checks in Hin. rewrite Hk in Hin.
    destruct (nonempty _); [|contradiction].
    rewrite check_elems_eq in Hin. simpl in Hin.
    apply elem_mismatches_in in Hin. destruct Hin as [k [e [_ [_ ->]]]].
    right. now apply at_elem.
- destruct (lookup key d) as [x|] eqn:Hx;
    [|unfold validate_field in Hin; rewrite Hk, Hx in Hin;
      destruct Hin as [<-|[]]; apply Hfield].
  destruct x as [ | | | | | elems | ];
    try (unfold validate_field in Hin; rewrite Hk, Hx in Hin;
         destruct Hin as [<-|[]]; apply Hfield).
  rewrite (list_field_out d key sv elems [] path (or_intror Hk) Hx) in Hin.
  simpl in Hin. apply in_app_or in Hin. destruct Hin as [Hin|Hin].
  + apply check_non_empty_in in Hin. destruct Hin as [-> _]. apply Hfield.
  + unfold element_checks in Hin. rewrite Hk in Hin.
    destruct (classify_list_dict sv Hk) as [sub [rest ->]].
    apply each_item_in in Hin;
      [|intros item p; apply validate_extends].
    destruct Hin as [[]|[k [item [_ Hin]]]].
    apply (reported_item items path key (JDict sub) rest (0 + k));
      [exact Hitem|].
    now apply (IHt (JDict sub) rest eq_refl item).
Qed.

(** Every violation that [_validate] appends is reported in one of the
    two ways of [reported]. *)
Lemma validate_reports (schema : json) :
  forall data path v, In v (_validate data schema [] path) -> reported schema path v.
Proof.
assert (Hroot : forall j path, reported j path (Violation path item_desc TypeError)).
{ intros j path. left. split; [apply val_here|now split]. }
induction schema as [j Hj | items IHfield IHtemplate] using schema_ind;
  intros data path v Hin.
- destruct j as [ | | | | | | its]; try (now destruct (Hj its));
    destruct data; simpl in Hin; try contradiction;
    destruct Hin as [<-|[]]; apply Hroot.
- destruct data as [ | | | | | | d];
    try (destruct Hin as [<-|[]]; apply Hroot).
  rewrite validate_dict_unfold in Hin.
  apply fold_extends_in in Hin.
  + destruct Hin as [[]|[[key sv] [Hitem Hin]]]. simpl in Hin.
    apply (validate_field_reports items d key sv path v); auto.
    * intros data p w. now apply (IHfield key).
    * intros template rest -> data p w. now apply (IHtemplate key template rest).
  + intros [key sv] _ vs. apply validate_field_app.
Qed.

(** ** List fields *)

Lemma must_be_non_empty_spec (key : string) :
  must_be_non_empty key = true <->
  (exists pre, key = pre ++ "_content")%string \/ key = "responses".
Proof.
unfold must_be_non_empty.
now rewrite orb_true_iff, endswith_spec, String.eqb_eq.
Qed.

Lemma check_non_empty_nil (key fp : string) (sv : json) (elems : list json) :
  check_non_empty key fp sv elems [] =
  if must_be_non_empty key && negb (nonempty elems)
  then [Violation fp sv NullOrEmptyValue]
  else [].
Proof.
unfold check_non_empty. now destruct elems, (must_be_non_empty key).
Qed.

Lemma elem_path_longer (fp suffix : string) (k : nat) :
  (elem_path fp k ++ suffix)%string <> fp.
Proof.
intros E. apply (f_equal length) in E. unfold elem_path in E.
rewrite !app_str_length in E. simpl in E. lia.
Qed.

(** The checks on the elements never report at the path of the list
    field itself. *)
Lemma element_checks_below (sv : json) (fp : string) (elems : list json)
  (v : violation) :
  In v (element_checks sv fp elems) -> field v <> fp.
Proof.
unfold element_checks. destruct (_classify sv) eqn:Hk; try contradiction.
- destruct (nonempty _); [|contradiction].
  rewrite check_elems_eq. simpl. intros Hin.
  apply elem_mismatches_in in Hin. destruct Hin as [k [e [_ [_ ->]]]].
  cbn [field]. intros E. apply (elem_path_longer fp "" (0 + k)).
  now rewrite app_str_nil_r.
- destruct (classify_list_dict sv Hk) as [sub [rest ->]]. intros Hin.
  apply each_item_in in Hin; [|intros item p; apply validate_extends].
  destruct Hin as [[]|[k [item [_ Hin]]]].
  apply validate_reports, reported_prefix in Hin. destruct Hin as [suffix ->].
  apply elem_path_longer.
Qed.

(** C3: for a present list field of either list kind, a NullOrEmptyValue
    violation at the field is recorded exactly when the list is empty and
    the key ends with [_content] or equals [responses]; the rule looks at
    the key only; the emptiness violation comes before, and in addition
    to, the checks on the elements; a list with at least one element gets
    no emptiness violation. *)
Theorem list_field_emptiness (d : list (string * json)) (key : string)
  (schema_value : json) (elems : list json) (path : string) :
  _classify schema_value = k_required_list_str \/
  _classify schema_value = k_required_list_dict ->
  lookup key d = Some (JList elems) ->
  let fp := field_path_of path key in
  let emptiness := Violation fp schema_value NullOrEmptyValue in
  let out := validate_field _validate d key schema_value [] path in
  (forall violations,
     validate_field _validate d key schema_value violations path =
     violations
     ++ (if must_be_non_empty key && negb (nonempty elems)
         then [emptiness] else [])
     ++ element_checks schema_value fp elems) /\
  (must_be_non_empty key = true <->
   (exists pre, key = pre ++ "_content")%string \/ key = "responses") /\
  (In emptiness out <->
   elems = [] /\
   ((exists pre, key = pre ++ "_content")%string \/ key = "responses")) /\
  (elems <> [] ->
   forall v, In v out ->
   ~ (field v = fp /\ violation_type v = NullOrEmptyValue)).
Proof.
intros Hk Hv fp emptiness out.
assert (Hout : forall vs,
          validate_field _validate d key schema_value vs path =
          vs ++ (if must_be_non_empty key && negb (nonempty elems)
                 then [emptiness] else [])
             ++ element_checks schema_value fp elems).
{ intros vs. rewrite (list_field_out d key schema_value elems vs path Hk Hv).
  now rewrite check_non_empty_nil. }
split; [exact Hout|]. split; [apply must_be_non_empty_spec|].
subst out. rewrite (Hout []). cbn [app]. split.
- rewrite <- must_be_non_empty_spec. split.
  + intros Hin. apply in_app_or in Hin. destruct Hin as [Hin|Hin].
    * destruct (must_be_non_empty key), elems; simpl in Hin;
        try contradiction. now split.
    * apply element_checks_below in Hin. now destruct Hin.
  + intros [-> Hkey]. rewrite Hkey. simpl. now left.
- intros Hne v Hin [Hf _]. apply in_app_or in Hin. destruct Hin as [Hin|Hin].
  + destruct elems; [now destruct Hne|].
    rewrite andb_false_r in Hin. contradiction.
  + now apply element_checks_below in Hin.
Qed.

Lemma list_field_emptiness_witness :
  _classify (JList [JStr "tag text"]) = k_required_list_str /\
  lookup "tags_content" example_items = Some (JList []) /\
  validate_field _validate example_items "tags_content"
    (JList [JStr "tag text"]) [] "" =
  [Violation "tags_content" (JList [JStr "tag text"]) NullOrEmptyValue].
Proof.
split; [reflexivity|]. split; [reflexivity|].
destruct (list_field_emptiness example_items "tags_content"
            (JList [JStr "tag text"]) [] "" (or_introl eq_refl) eq_refl)
  as [H _].
exact (H []).
Defined.

(** A present string list with a derivable element type: element [i] is
    reported exactly when it is not an instance of an allowed class. *)
Lemma list_str_mismatch_iff (d : list (string * json)) (key : string)
  (sv : json) (elems : list json) (path : string) (i : nat) (e : json) :
  _classify sv = k_required_list_str ->
  lookup key d = Some (JList elems) ->
  allowed_of (inner_type_str_of sv) <> [] ->
  nth_error elems i = Some e ->
  In (Violation (elem_path (field_path_of path key) i) sv TypeMismatch)
     (validate_field _validate d key sv [] path) <->
  isinstance_any e (allowed_of (inner_type_str_of sv)) = false.
Proof.
intros Hk Hv Hallowed Hi.
rewrite (list_field_out d key sv elems [] path (or_introl Hk) Hv).
unfold element_checks. rewrite Hk. cbn [app].
destruct (allowed_of (inner_type_str_of sv)) as [|c cs] eqn:Ea;
  [now destruct Hallowed|].
cbn [nonempty]. rewrite check_elems_eq. cbn [app]. split.
- intros Hin. apply in_app_or in Hin. destruct Hin as [Hin|Hin].
  + apply check_non_empty_in in Hin. destruct Hin as [E _]. discriminate.
  + apply elem_mismatches_in in Hin. destruct Hin as [k [e' [Hk' [He' E]]]].
    injection E as E. apply elem_path_inj in E. simpl in E. subst k.
    congruence.
- intros He. apply in_or_app. right.
  now apply (elem_mismatches_nth (c :: cs) _ sv elems 0 i e).
Qed.

(** C9: the elements of a string list are tested with [isinstance]
    against the classes derived from the tag, not with the scalar numeric
    predicates.  When [int] is among the classes (as for the template
    [int or float]) a boolean element is not reported; when [float] is
    the only class (as for the tag [list[float]]) an integer element is
    reported at [fieldPath[i]]; the scalar rules decide both cases the
    other way. *)
Theorem list_element_checks (d : list (string * json)) (key : string)
  (schema_value : json) (elems : list json) (path : string) :
  _classify schema_value = k_required_list_str ->
  lookup key d = Some (JList elems) ->
  let allowed := allowed_of (inner_type_str_of schema_value) in
  let out := validate_field _validate d key schema_value [] path in
  let mismatch := fun i =>
    Violation (elem_path (field_path_of path key) i) schema_value TypeMismatch in
  (allowed <> [] -> forall i e, nth_error elems i = Some e ->
     (In (mismatch i) out <-> isinstance_any e allowed = false)) /\
  (In py_int allowed -> forall i b, nth_error elems i = Some (JBool b) ->
     ~ In (mismatch i) out) /\
  (allowed = [py_float] -> forall i n, nth_error elems i = Some (JInt n) ->
     In (mismatch i) out) /\
  (forall s rest, tagged "int or float" s -> schema_value = JList (JStr s :: rest) ->
     allowed = [py_int; py_float]) /\
  (forall s, tagged "list[float]" s -> schema_value = JStr s ->
     allowed = [py_float]) /\
  (forall b n, numeric_valid ["int"; "float"] (JBool b) = false /\
               numeric_valid ["float"] (JInt n) = true).
Proof.
intros Hk Hv allowed out mismatch. subst allowed out mismatch. cbv beta.
split; [|split; [|split; [|split; [|split]]]].
- intros Hallowed i e Hi. now apply (list_str_mismatch_iff d key _ elems).
- intros Hint i b Hi Hin.
  apply (list_str_mismatch_iff d key schema_value elems path i (JBool b))
    in Hin; auto.
  + unfold isinstance_any in Hin.
    assert (Ht : existsb (isinstance (JBool b))
                   (allowed_of (inner_type_str_of schema_value)) = true)
      by (apply existsb_exists; exists py_int; now split).
    congruence.
  + intros E. rewrite E in Hint. contradiction.
- intros Hfloat i n Hi.
  apply (list_str_mismatch_iff d key schema_value elems path i (JInt n)); auto.
  + rewrite Hfloat. discriminate.
  + rewrite Hfloat. reflexivity.
- intros s rest Hs ->. apply tag_parts_int_or_float in Hs.
  unfold inner_type_str_of. rewrite Hs. reflexivity.
- intros s Hs ->. apply tag_parts_list_float in Hs.
  unfold inner_type_str_of. rewrite Hs. reflexivity.
- intros b n. split; reflexivity.
Qed.

Lemma list_element_checks_witness :
  _classify (JStr "[list[float]] weights") = k_required_list_str /\
  lookup "weights" [("weights", JList [JFloat (QArith_base.Qmake 1 2); JInt 3])]
    = Some (JList [JFloat (QArith_base.Qmake 1 2); JInt 3]) /\
  In (Violation "m.weights[1]" (JStr "[list[float]] weights") TypeMismatch)
     (validate_field _validate
        [("weights", JList [JFloat (QArith_base.Qmake 1 2); JInt 3])]
        "weights" (JStr "[list[float]] weights") [] "m").
Proof.
split; [reflexivity|]. split; [reflexivity|].
destruct (list_element_checks
            [("weights", JList [JFloat (QArith_base.Qmake 1 2); JInt 3])]
            "weights" (JStr "[list[float]] weights")
            [JFloat (QArith_base.Qmake 1 2); JInt 3] "m" eq_refl eq_refl)
  as [_ [_ [H _]]].
exact (H eq_refl 1 3%Z eq_refl).
Defined.

(** Lists evaluated with the two schemas that C9 names. *)
Example list_element_checks_values :
  validate_field _validate [("scores", JList [JBool true; JStr "x"])] "scores"
    (JList [JStr "[int or float] a score"]) [] "" =
  [Violation "scores[1]" (JList [JStr "[int or float] a score"]) TypeMismatch] /\
  validate_field _validate [("weights", JList [JInt 3])] "weights"
    (JStr "[list[float]] weights") [] "" =
  [Violation "weights[0]" (JStr "[list[float]] weights") TypeMismatch].
Proof. split; vm_compute; reflexivity. Qed.

(** ** Descriptors *)

Lemma item_desc_not_in_example (f : string) :
  ~ schema_value_at (JDict example_schema) "" f item_desc.
Proof.
intros H. inversion H as [items path key sv Hin | items path key sv i Hin
                         | items path key sub f' d' Hin Hsub
                         | items path key template rest i f' d' Hin Hsub];
  subst; simpl in Hin;
  repeat match goal with
         | H : _ \/ _ |- _ => destruct H
         | H : False |- _ => destruct H
         | H : (_, _) = (_, _) |- _ => inversion H; clear H; subst
         end;
  try discriminate; inversion Hsub.
Qed.

(** C8 as stated fails for a record that is not an object: its
    violation carries a fixed string, which is no schema value. *)
Lemma violation_descriptor_counterexample :
  _validate (JList []) (JDict example_schema) [] "" =
    [Violation "" item_desc TypeMismatch] /\
  (forall f, ~ schema_value_at (JDict example_schema) "" f item_desc) /\
  ~ (forall data schema path v,
       In v (_validate data (JDict schema) [] path) ->
       schema_value_at (JDict schema) path (field v) (field_desc v)).
Proof.
split; [reflexivity|]. split; [exact item_desc_not_in_example|].
intros H.
apply (item_desc_not_in_example "").
apply (H (JList []) example_schema "" (Violation "" item_desc TypeMismatch)).
now left.
Qed.

(** ** Nested records *)

(** Violations below a nested object and below an element of an object
    list carry the full path; an element that is not an object is
    reported with the fixed descriptor. *)
Example nested_paths :
  _validate
    (JDict [ ("meta", JDict [("contact", JDict [("email", JNull)])]);
             ("responses", JList [JDict [("text", JStr "a")];
                                  JDict [];
                                  JInt 7]) ])
    (JDict [ ("meta", JDict [("contact", JDict [("email", JStr "e-mail")])]);
             ("responses", JList [JDict [("text", JStr "response text")]]) ])
    [] "" =
  [ Violation "meta.contact.email" (JStr "e-mail") NullOrEmptyValue;
    Violation "responses[1].text" (JStr "response text") MissingField;
    Violation "responses[2]" item_desc TypeMismatch ].
Proof. vm_compute. reflexivity. Qed.

(** An empty [responses] list of objects is reported once. *)
Example empty_responses :
  _validate (JDict [("responses", JList [])])
    (JDict [("responses", JList [JDict [("text", JStr "response text")]])])
    [] "" =
  [ Violation "responses" (JList [JDict [("text", JStr "response text")]])
      NullOrEmptyValue ].
Proof. vm_compute. reflexivity. Qed.

(** * Further properties of the validator *)

(** ** Order and composition *)

Lemma validate_dict_flat_map (d items : list (string * json))
  (vs : list violation) (path : string) :
  _validate (JDict d) (JDict items) vs path =
  vs ++ flat_map (fun kv => validate_field _validate d (fst kv) (snd kv) [] path)
                 items.
Proof.
rewrite validate_dict_unfold. revert vs.
induction items as [|[key sv] items IH]; intros vs; simpl.
- now rewrite app_nil_r.
- rewrite IH, validate_field_app. now rewrite app_assoc.
Qed.

(** X1: validating a record against a schema keeps the violations
    already recorded, and appends the violations of every schema field in
    declaration order: the walk does not stop at the first violation.
    Validating against two schemas in a row is validating against their
    concatenation. *)
Theorem fields_in_order (d items items' : list (string * json))
  (violations : list violation) (path : string) :
  _validate (JDict d) (JDict items) violations path =
    violations
    ++ flat_map (fun kv => validate_field _validate d (fst kv) (snd kv) [] path)
                items /\
  _validate (JDict d) (JDict (items ++ items')) violations path =
    _validate (JDict d) (JDict items')
      (_validate (JDict d) (JDict items) violations path) path.
Proof.
split; [apply validate_dict_flat_map|].
rewrite !validate_dict_unfold. apply fold_left_app.
Qed.

(** ** Skipped fields *)

(** X2: a field is never reported, whatever the record holds under its
    key, when its schema string (or the string template of its schema
    list) has the token [auto] or [optional], and when its schema value is
    null, a number, a boolean, an empty list or a list whose first element
    is neither a string nor an object. *)
Theorem skipped_fields (d : list (string * json)) (key : string)
  (schema_value : json) (violations : list violation) (path : string) :
  (exists s,
     (schema_value = JStr s \/ exists rest, schema_value = JList (JStr s :: rest)) /\
     (In "auto" (_tag_parts s) \/ In "optional" (_tag_parts s))) \/
  (forall s, schema_value <> JStr s) /\
  (forall items, schema_value <> JDict items) /\
  (forall e rest, schema_value = JList (e :: rest) ->
     isinstance e py_str = false /\ isinstance e py_dict = false) ->
  validate_field _validate d key schema_value violations path = violations.
Proof.
intros H.
assert (Hk : _classify schema_value = k_auto \/ _classify schema_value = k_optional).
{ destruct H as [[s [Hs Htok]]|[Hstr [Hdict Hlist]]].
  - rewrite <- !mem_In in Htok. destruct Hs as [->|[rest ->]]; unfold _classify.
    + destruct (PyStr.mem "auto" (_tag_parts s)); [now left|].
      destruct Htok as [Htok|Htok]; [discriminate|]. rewrite Htok. now right.
    + right. destruct Htok as [-> | ->]; [reflexivity|].
      now rewrite orb_true_r.
  - left. destruct schema_value as [ | | | | s | [|e rest] | items];
      try reflexivity.
    + now destruct (Hstr s).
    + destruct (Hlist e rest eq_refl) as [H1 H2].
      destruct e; try reflexivity; discriminate.
    + now destruct (Hdict items). }
unfold validate_field. now destruct Hk as [-> | ->].
Qed.

Lemma skipped_fields_witness :
  In "optional" (_tag_parts "[int, optional] weight") /\
  validate_field _validate [("weight", JStr "heavy")] "weight"
    (JStr "[int, optional] weight") [] "" = [].
Proof.
assert (H : In "optional" (_tag_parts "[int, optional] weight"))
  by (vm_compute; tauto).
split; [exact H|].
apply (skipped_fields [("weight", JStr "heavy")] "weight"
         (JStr "[int, optional] weight") [] "").
left. exists "[int, optional] weight". split; [now left|now right].
Defined.

(** ** What a valid verdict means *)

Lemma flat_map_nil_iff {A B : Type} (f : A -> list B) (l : list A) :
  flat_map f l = [] <-> forall x, In x l -> f x = [].
Proof.
induction l as [|a l IH]; simpl.
- split; [intros _ x []|reflexivity].
- split.
  + intros H. apply app_eq_nil in H. destruct H as [Ha Hl].
    intros x [<-|Hx]; [exact Ha|]. now apply IH.
  + intros H. rewrite (H a (or_introl eq_refl)). simpl.
    apply IH. intros x Hx. apply H. now right.
Qed.

Lemma elem_mismatches_nil_iff (allowed : list pytype) (fp : string) (sv : json)
  (elems : list json) :
  forall i, elem_mismatches allowed fp sv i elems = [] <->
            forall e, In e elems -> isinstance_any e allowed = true.
Proof.
induction elems as [|elem rest IH]; intros i; simpl.
- split; [intros _ e []|reflexivity].
- split.
  + intros H. apply app_eq_nil in H. destruct H as [He Hrest].
    intros e [<-|Hin].
    * destruct (isinstance_any elem allowed); [reflexivity|discriminate].
    * now apply (IH (S i)).
  + intros H. rewrite (H elem (or_introl eq_refl)). simpl.
    apply IH. intros e He. apply H. now right.
Qed.

Lemma each_item_nil_iff
  (call : json -> list violation -> string -> list violation)
  (fp : string) (elems : list json) :
  (forall item p, extends (fun vs => call item vs p)) ->
  forall i, each_item call fp i elems [] = [] <->
            forall k e, nth_error elems k = Some e ->
                        call e [] (elem_path fp (i + k)) = [].
Proof.
intros Hcall. induction elems as [|elem rest IH]; intros i; simpl.
- split; [intros _ [|k] e H; discriminate|reflexivity].
- rewrite (each_item_extends call fp rest Hcall (S i)
             (call elem [] (elem_path fp i))).
  split.
  + intros H. apply app_eq_nil in H. destruct H as [He Hrest].
    intros [|k] e Hk; simpl in Hk.
    * injection Hk as <-. now rewrite Nat.add_0_r.
    * rewrite Nat.add_succ_r. now apply (IH (S i)).
  + intros H. pose proof (H 0 elem eq_refl) as H0.
    rewrite Nat.add_0_r in H0. rewrite H0. simpl.
    apply IH. intros k e Hk. specialize (H (S k) e Hk).
    now rewrite Nat.add_succ_r in H.
Qed.

Lemma check_non_empty_nil_iff (key fp : string) (sv : json) (elems : list json) :
  check_non_empty key fp sv elems [] = [] <->
  (must_be_non_empty key = true -> elems <> []).
Proof.
unfold check_non_empty.
destruct (must_be_non_empty key), elems; simpl; split;
  try discriminate; try reflexivity; intros H; try congruence.
- now destruct (H eq_refl).
Qed.

(** A field adds no violation exactly when the record meets [field_ok]. *)
Lemma validate_field_nil_iff (d : list (string * json)) (key : string)
  (sv : json) (path : string) :
  validate_field _validate d key sv [] path = [] <-> field_ok d key sv path.
Proof.
unfold field_ok. destruct (_classify sv) eqn:Hk.
- unfold validate_field. rewrite Hk. tauto.
- unfold validate_field. rewrite Hk. tauto.
- unfold validate_field. rewrite Hk.
  destruct (lookup key d) as [[ | | | | s | | ]|]; simpl; split;
    try discriminate; try (intros [s' E]; discriminate).
  + intros _. now exists s.
  + reflexivity.
- unfold validate_field. rewrite Hk.
  destruct (lookup key d) as [v|]; simpl; split;
    try discriminate; try (intros [v' E]; discriminate).
  + intros _. now exists v.
  + reflexivity.
- destruct (classify_numeric sv Hk) as [s ->].
  unfold validate_field. rewrite Hk.
  destruct (lookup key d) as [v|]; simpl;
    [|split; [discriminate|intros [v' [E _]]; discriminate]].
  rewrite numeric_valid_spec.
  destruct (existsb _ _) eqn:E; simpl; split; try discriminate.
  + intros _. exists v. split; [reflexivity|]. intros s' Es.
    injection Es as <-. exact E.
  + reflexivity.
  + intros [v' [Ev H]]. injection Ev as <-.
    specialize (H s eq_refl). congruence.
- unfold validate_field. rewrite Hk.
  destruct (lookup key d) as [v|]; simpl;
    [|split; [discriminate|intros [v' [E _]]; discriminate]].
  destruct v as [ | | | | | | its]; simpl; split;
    try discriminate; try (intros [v' [E _]]; discriminate).
  + intros H. now exists its.
  + intros [its' [E H]]. injection E as <-. exact H.
- destruct (lookup key d) as [v|] eqn:Hv;
    [|unfold validate_field; rewrite Hk, Hv; split;
      [discriminate|intros [v' [E _]]; discriminate]].
  destruct v as [ | | | | | elems | ];
    try (unfold validate_field; rewrite Hk, Hv; split;
         [discriminate|intros [v' [E _]]; discriminate]).
  rewrite (list_field_out d key sv elems [] path (or_introl Hk) Hv).
  cbn [app]. unfold element_checks. rewrite Hk.
  split.
  + intros H. apply app_eq_nil in H. destruct H as [Hne Hel].
    exists elems. split; [reflexivity|].
    split; [exact (proj1 (check_non_empty_nil_iff _ _ _ _) Hne)|].
    intros Hallowed e He.
    destruct (allowed_of (inner_type_str_of sv)) as [|c cs] eqn:Ea;
      [now destruct Hallowed|].
    cbn [nonempty] in Hel. rewrite check_elems_eq in Hel. cbn [app] in Hel.
    exact (proj1 (elem_mismatches_nil_iff (c :: cs) _ sv elems 0) Hel e He).
  + intros [elems' [E [Hne Hel]]]. injection E as <-.
    rewrite (proj2 (check_non_empty_nil_iff key (field_path_of path key) _ elems)
               Hne). cbn [app].
    destruct (allowed_of (inner_type_str_of sv)) as [|c cs] eqn:Ea;
      [reflexivity|].
    cbn [nonempty]. rewrite check_elems_eq. cbn [app].
    apply elem_mismatches_nil_iff. apply Hel. discriminate.
- destruct (lookup key d) as [v|] eqn:Hv;
    [|unfold validate_field; rewrite Hk, Hv; split;
      [discriminate|intros [v' [E _]]; discriminate]].
  destruct v as [ | | | | | elems | ];
    try (unfold validate_field; rewrite Hk, Hv; split;
         [discriminate|intros [v' [E _]]; discriminate]).
  rewrite (list_field_out d key sv elems [] path (or_intror Hk) Hv).
  cbn [app]. unfold element_checks. rewrite Hk.
  destruct (classify_list_dict sv Hk) as [sub [rest ->]].
  assert (Hext : forall item p,
            extends (fun vs => _validate item (JDict sub) vs p))
    by (intros item p; apply validate_extends).
  split.
  + intros H. apply app_eq_nil in H. destruct H as [Hne Hel].
    exists elems. split; [reflexivity|].
    split; [exact (proj1 (check_non_empty_nil_iff _ _ _ _) Hne)|].
    intros template rest' E i e Hi. injection E as <- <-.
    exact (proj1 (each_item_nil_iff (fun item => _validate item (JDict sub))
                    _ elems Hext 0) Hel i e Hi).
  + intros [elems' [E [Hne Hel]]]. injection E as <-.
    rewrite (proj2 (check_non_empty_nil_iff key (field_path_of path key) _ elems)
               Hne). cbn [app].
    apply (each_item_nil_iff (fun item => _validate item (JDict sub))
             _ elems Hext 0).
    intros k e Hk'. now apply (Hel (JDict sub) rest eq_refl).
Qed.

(** X3: a record is valid exactly when it is an object and every field
    of the schema is satisfied: a skipped field asks nothing, a required
    field must be present with a value of the shape its kind demands
    (nested objects and the elements of object lists valid in turn, lists
    named [responses] or [..._content] non-empty). *)
Theorem valid_iff_fields_ok (file : list (string * json))
  (cache : option (list (string * json))) (entry : json) :
  let schema := fst (_load_schema file cache) in
  fst (fst (validate_entry file cache entry)) = true <->
  exists d, entry = JDict d /\
            forall key schema_value,
              In (key, schema_value) schema -> field_ok d key schema_value "".
Proof.
unfold validate_entry. destruct (_load_schema file cache) as [schema cache'].
cbn [fst].
assert (Hnil : forall vs : list violation,
          Nat.eqb (List.length vs) 0 = true <-> vs = []).
{ intros [|v vs]; simpl; split; congruence. }
rewrite Hnil.
destruct entry as [ | | | | | | d];
  try (split; [discriminate|intros [d' [E _]]; discriminate]).
rewrite validate_dict_flat_map. cbn [app]. rewrite flat_map_nil_iff.
split.
- intros H. exists d. split; [reflexivity|]. intros key sv Hin.
  apply validate_field_nil_iff. exact (H (key, sv) Hin).
- intros [d' [E H]]. injection E as <-. intros [key sv] Hin.
  apply validate_field_nil_iff. now apply H.
Qed.

Lemma valid_iff_fields_ok_witness :
  exists d,
    JDict [ ("title", JStr "t"); ("scores", JList [JInt 1]);
            ("tags_content", JList [JStr "a"]) ] = JDict d /\
    forall key schema_value,
      In (key, schema_value) example_schema -> field_ok d key schema_value "".
Proof.
apply (proj1 (valid_iff_fields_ok example_schema None
                (JDict [ ("title", JStr "t"); ("scores", JList [JInt 1]);
                         ("tags_content", JList [JStr "a"]) ]))).
vm_compute. reflexivity.
Defined.

(** ** Keys the schema does not name *)

Lemma validate_field_lookup
  (self : json -> json -> list violation -> string -> list violation)
  (d d' : list (string * json)) (key : string) (sv : json)
  (vs : list violation) (path : string) :
  lookup key d = lookup key d' ->
  validate_field self d key sv vs path = validate_field self d' key sv vs path.
Proof. intros H. unfold validate_field. now rewrite H. Qed.

Lemma flat_map_agree {A B : Type} (f g : A -> list B) (l : list A) :
  (forall x, In x l -> f x = g x) -> flat_map f l = flat_map g l.
Proof.
induction l as [|a l IH]; intros H; simpl; [reflexivity|].
rewrite (H a (or_introl eq_refl)). f_equal. apply IH.
intros x Hx. apply H. now right.
Qed.

(** X4: the validator reads the record only under the keys of the
    schema.  Two records that agree on those keys get the same
    violations; in particular an item under a key the schema does not
    name is never reported and changes nothing. *)
Theorem unlisted_keys_ignored (d d' items : list (string * json))
  (violations : list violation) (path : string) :
  (forall key schema_value,
     In (key, schema_value) items -> lookup key d = lookup key d') ->
  _validate (JDict d) (JDict items) violations path =
    _validate (JDict d') (JDict items) violations path /\
  (forall k v,
     (forall schema_value, ~ In (k, schema_value) items) ->
     _validate (JDict ((k, v) :: d)) (JDict items) violations path =
     _validate (JDict d) (JDict items) violations path).
Proof.
assert (Hagree : forall d1 d2,
          (forall key sv, In (key, sv) items -> lookup key d1 = lookup key d2) ->
          _validate (JDict d1) (JDict items) violations path =
          _validate (JDict d2) (JDict items) violations path).
{ intros d1 d2 H. rewrite !validate_dict_flat_map. f_equal.
  apply flat_map_agree. intros [key sv] Hin. simpl.
  apply validate_field_lookup. now apply (H key sv). }
intros H. split; [now apply Hagree|].
intros k v Hk. apply Hagree. intros key sv Hin. simpl.
destruct (String.eqb_spec key k) as [->|_]; [|reflexivity].
now destruct (Hk sv).
Qed.

Lemma unlisted_keys_ignored_witness :
  _validate (JDict [("note", JInt 0); ("title", JStr "t")])
    (JDict [("title", JStr "title text")]) [] "" =
  _validate (JDict [("title", JStr "t"); ("extra", JNull)])
    (JDict [("title", JStr "title text")]) [] "".
Proof.
refine (proj1 (unlisted_keys_ignored [("note", JInt 0); ("title", JStr "t")]
                 [("title", JStr "t"); ("extra", JNull)]
                 [("title", JStr "title text")] [] "" _)).
intros key sv [E|[]]. injection E as <- _. reflexivity.
Defined.

(** ** Paths *)

(** X5: every violation recorded while checking the field [key] at
    [path] has a path that starts with the path of that field,
    [path.key]: violations below nested objects and list elements only
    extend it. *)
Theorem violations_below_field (d : list (string * json)) (key : string)
  (schema_value : json) (path : string) (v : violation) :
  In v (validate_field _validate d key schema_value [] path) ->
  exists suffix, (field v = field_path_of path key ++ suffix)%string.
Proof.
intros Hin.
assert (Hfield : forall t w,
          w = Violation (field_path_of path key) schema_value t ->
          exists suffix, (field w = field_path_of path key ++ suffix)%string).
{ intros t w ->. exists ""%string. simpl. now rewrite app_str_nil_r. }
destruct (_classify schema_value) eqn:Hk.
1-5: unfold validate_field in Hin; rewrite Hk in Hin;
     try contradiction;
     destruct (lookup key d) as [x|]; try contradiction;
     try (destruct Hin as [<-|[]]; now eapply Hfield).
- destruct x; try contradiction; destruct Hin as [<-|[]]; now eapply Hfield.
- destruct schema_value; try contradiction.
  destruct (negb _); [|contradiction].
  destruct Hin as [<-|[]]; now eapply Hfield.
- unfold validate_field in Hin. rewrite Hk in Hin.
  destruct (lookup key d) as [x|];
    [|destruct Hin as [<-|[]]; now eapply Hfield].
  destruct (negb _); [destruct Hin as [<-|[]]; now eapply Hfield|].
  now apply validate_reports, reported_prefix in Hin.
- destruct (lookup key d) as [x|] eqn:Hx;
    [|unfold validate_field in Hin; rewrite Hk, Hx in Hin;
      destruct Hin as [<-|[]]; now eapply Hfield].
  destruct x as [ | | | | | elems | ];
    try (unfold validate_field in Hin; rewrite Hk, Hx in Hin;
         destruct Hin as [<-|[]]; now eapply Hfield).
  rewrite (list_field_out d key schema_value elems [] path (or_introl Hk) Hx)
    in Hin.
  simpl in Hin. apply in_app_or in Hin. destruct Hin as [Hin|Hin].
  + apply check_non_empty_in in Hin. destruct Hin as [E _].
    eapply Hfield. exact E.
  + unfold element_checks in Hin. rewrite Hk in Hin.
    destruct (nonempty _); [|contradiction].
    rewrite check_elems_eq in Hin. simpl in Hin.
    apply elem_mismatches_in in Hin. destruct Hin as [k [e [_ [_ ->]]]].
    eexists. unfold elem_path. cbn [field]. reflexivity.
- destruct (lookup key d) as [x|] eqn:Hx;
    [|unfold validate_field in Hin; rewrite Hk, Hx in Hin;
      destruct Hin as [<-|[]]; now eapply Hfield].
  destruct x as [ | | | | | elems | ];
    try (unfold validate_field in Hin; rewrite Hk, Hx in Hin;
         destruct Hin as [<-|[]]; now eapply Hfield).
  rewrite (list_field_out d key schema_value elems [] path (or_intror Hk) Hx)
    in Hin.
  simpl in Hin. apply in_app_or in Hin. destruct Hin as [Hin|Hin].
  + apply check_non_empty_in in Hin. destruct Hin as [E _].
    eapply Hfield. exact E.
  + unfold element_checks in Hin. rewrite Hk in Hin.
    destruct (classify_list_dict schema_value Hk) as [sub [rest ->]].
    apply each_item_in in Hin; [|intros item p; apply validate_extends].
    destruct Hin as [[]|[k [item [_ Hin]]]].
    apply validate_reports, reported_prefix in Hin. destruct Hin as [suf ->].
    eexists. unfold elem_path. rewrite !app_str_assoc. reflexivity.
Qed.

Lemma violations_below_field_witness :
  In (Violation "meta.contact.email" (JStr "e-mail") NullOrEmptyValue)
     (validate_field _validate
        [("contact", JDict [("email", JNull)])] "contact"
        (JDict [("email", JStr "e-mail")]) [] "meta") /\
  exists suffix, ("meta.contact.email" = "meta.contact" ++ suffix)%string.
Proof.
assert (Hin : In (Violation "meta.contact.email" (JStr "e-mail") NullOrEmptyValue)
                 (validate_field _validate
                    [("contact", JDict [("email", JNull)])] "contact"
                    (JDict [("email", JStr "e-mail")]) [] "meta"))
  by (vm_compute; tauto).
split; [exact Hin|].
exact (violations_below_field _ _ _ _ _ Hin).
Defined.

(** ** The schema cache *)

(** X6: after any call of the entry point the cache holds a schema: the
    file's when the cache was empty, the cached one otherwise.  Every
    later call validates against that schema and leaves the cache as it
    is, whatever the file then contains: the file is read at most
    once. *)
Theorem schema_loaded_once (file : list (string * json))
  (cache : option (list (string * json))) (entry : json) :
  let cache1 := snd (validate_entry file cache entry) in
  let schema := match cache with Some s => s | None => file end in
  cache1 = Some schema /\
  fst (fst (validate_entry file cache entry)) =
    Nat.eqb (List.length (snd (fst (validate_entry file cache entry)))) 0 /\
  snd (fst (validate_entry file cache entry)) =
    _validate entry (JDict schema) [] "" /\
  forall file' entry',
    snd (validate_entry file' cache1 entry') = cache1 /\
    snd (fst (validate_entry file' cache1 entry')) =
      _validate entry' (JDict schema) [] "".
Proof.
unfold validate_entry, _load_schema. destruct cache as [s|]; cbn.
- repeat split.
- repeat split.
Qed.

(** ** Tokens *)

Lemma lstrip_head (s : string) :
  match PyStr.lstrip s with
  | String c _ => PyStr.is_space c = false
  | EmptyString => True
  end.
Proof.
induction s as [|c s IH]; simpl; [exact I|].
destruct (PyStr.is_space c) eqn:E; [exact IH|exact E].
Qed.

Lemma rstrip_cons (c : ascii) (s : string) :
  PyStr.rstrip (String c s) =
  match PyStr.rstrip s with
  | EmptyString => if PyStr.is_space c then EmptyString else String c EmptyString
  | r => String c r
  end.
Proof. reflexivity. Qed.

Lemma rstrip_idem (s : string) : PyStr.rstrip (PyStr.rstrip s) = PyStr.rstrip s.
Proof.
induction s as [|c s IH]; [reflexivity|].
rewrite rstrip_cons.
destruct (PyStr.rstrip s) as [|c' r] eqn:E.
- destruct (PyStr.is_space c) eqn:Ec; [reflexivity|].
  rewrite rstrip_cons. cbn [PyStr.rstrip]. now rewrite Ec.
- rewrite rstrip_cons, IH. reflexivity.
Qed.

Lemma rstrip_keeps_head (c : ascii) (s : string) :
  PyStr.is_space c = false -> exists r, PyStr.rstrip (String c s) = String c r.
Proof.
intros Hc. rewrite rstrip_cons. destruct (PyStr.rstrip s) as [|c' r].
- rewrite Hc. now exists ""%string.
- now exists (String c' r).
Qed.

Lemma strip_idem (s : string) : PyStr.strip (PyStr.strip s) = PyStr.strip s.
Proof.
unfold PyStr.strip. pose proof (lstrip_head s) as Hh.
destruct (PyStr.lstrip s) as [|c x]; [reflexivity|].
destruct (rstrip_keeps_head c x Hh) as [r Er]. rewrite Er.
cbn [PyStr.lstrip]. rewrite Hh, <- Er. apply rstrip_idem.
Qed.

(** X7: [_tag_parts] always returns at least one token, so [parts[0]]
    is always defined, and every token is free of surrounding
    whitespace; the same holds for the type tokens obtained by splitting
    the first token on [ or ], so the emptiness test on them in
    [_classify] never fails. *)
Theorem tag_tokens_stripped (s : string) :
  (exists first rest,
     _tag_parts s = first :: rest /\ first_part (_tag_parts s) = first) /\
  (forall t, In t (_tag_parts s) -> PyStr.strip t = t) /\
  type_tokens_of (first_part (_tag_parts s)) <> [] /\
  (forall t, In t (type_tokens_of (first_part (_tag_parts s))) ->
     PyStr.strip t = t).
Proof.
assert (Hstrip : forall t l, In t (map PyStr.strip l) -> PyStr.strip t = t).
{ intros t l Hin. apply in_map_iff in Hin. destruct Hin as [p [<- _]].
  apply strip_idem. }
split; [|split; [|split]].
- pose proof (tag_parts_nonempty s) as Hne.
  destruct (_tag_parts s) as [|first rest]; [now destruct Hne|].
  now exists first, rest.
- intros t. apply Hstrip.
- pose proof (type_tokens_nonempty (first_part (_tag_parts s))) as H.
  intros E. rewrite E in H. discriminate.
- intros t. apply Hstrip.
Qed.

(** ** The description after the tag *)

Lemma index_cons (p : string) (c : ascii) (s : string) :
  index 0 p (String c s) =
  if prefix p (String c s) then Some 0
  else match index 0 p s with Some n => Some (S n) | None => None end.
Proof. reflexivity. Qed.

Lemma prefix_close_cons (c : ascii) (s : string) :
  prefix "] " (String c s) = true <-> c = "]"%char /\ exists r, s = String " " r.
Proof.
rewrite prefix_spec. split.
- intros [r E]. simpl in E. injection E as -> ->. split; [reflexivity|now exists r].
- intros [-> [r ->]]. now exists r.
Qed.

Lemma index_close_after (a rest : string) :
  index 0 "] " a = None ->
  index 0 "] " (a ++ "] " ++ rest) = Some (length a).
Proof.
cbn [String.append]. induction a as [|c a IH]; intros H.
- cbn [String.append String.length]. rewrite index_cons.
  assert (E : prefix "] " (String "]" (String " " rest)) = true)
    by (apply prefix_spec; now exists rest).
  now rewrite E.
- rewrite index_cons in H.
  destruct (prefix "] " (String c a)) eqn:Ep; [discriminate|].
  destruct (index 0 "] " a) eqn:Ei; [discriminate|].
  cbn [String.append String.length]. rewrite index_cons, (IH eq_refl).
  destruct (prefix "] " (String c (a ++ String "]" (String " " rest))))
    eqn:Ep'; [|reflexivity].
  apply prefix_close_cons in Ep'. destruct Ep' as [-> [r Er]].
  destruct a as [|c2 a]; [discriminate|].
  injection Er as -> _.
  assert (Hp : prefix "] " (String "]" (String " " a)) = true)
    by (apply prefix_close_cons; split; [reflexivity|now exists a]).
  congruence.
Qed.

Lemma index_close_bare (a : string) :
  index 0 "] " a = None -> index 0 "] " (a ++ "]") = None.
Proof.
induction a as [|c a IH]; intros H; [reflexivity|].
rewrite index_cons in H.
destruct (prefix "] " (String c a)) eqn:Ep; [discriminate|].
destruct (index 0 "] " a) eqn:Ei; [discriminate|].
cbn [String.append]. rewrite index_cons, (IH eq_refl).
destruct (prefix "] " (String c (a ++ "]"))) eqn:Ep'; [|reflexivity].
apply prefix_close_cons in Ep'. destruct Ep' as [-> [r Er]].
destruct a as [|c2 a]; [discriminate|].
injection Er as -> _.
assert (Hp : prefix "] " (String "]" (String " " a)) = true)
  by (apply prefix_close_cons; split; [reflexivity|now exists a]).
congruence.
Qed.

Lemma rindex_last_bracket (a : string) :
  forall i, PyStr.rindex i "]" (a ++ "]") = Some (i + length a).
Proof.
induction a as [|c a IH]; intros i.
- cbn. now rewrite Nat.add_0_r.
- cbn [String.append PyStr.rindex String.length]. rewrite IH. f_equal. lia.
Qed.

Lemma substring_prefix (a b : string) : substring 0 (length a) (a ++ b) = a.
Proof.
induction a as [|c a IH]; simpl.
- apply substring_zero_len.
- now rewrite IH.
Qed.

(** The tokens of a string made of a bracketed tag and a description. *)
Lemma tag_parts_tagged (tag s : string) :
  index 0 "] " tag = None -> tagged tag s -> _tag_parts s = spec_tokens tag.
Proof.
intros Htag Hs.
assert (Ha : index 0 "] " (String "[" tag) = None).
{ rewrite index_cons, Htag.
  destruct (prefix "] " (String "[" tag)) eqn:E; [|reflexivity].
  apply prefix_close_cons in E. destruct E as [E _]. discriminate. }
destruct Hs as [->|[desc ->]].
- rewrite (tag_parts_of_rclose _ (S (length tag))).
  + cbn [String.append]. simpl. rewrite Nat.sub_0_r. now rewrite substring_prefix.
  + apply (index_close_bare (String "[" tag) Ha).
  + apply (rindex_last_bracket (String "[" tag) 0).
- rewrite (tag_parts_of_close _ (S (length tag))).
  + cbn [String.append]. simpl. rewrite Nat.sub_0_r. now rewrite substring_prefix.
  + apply (index_close_after (String "[" tag) desc Ha).
Qed.

(** X8: when the tag holds no ["] "], the tokens of a schema string
    are those of the tag, whatever description follows the closing
    bracket; the description has no influence on the classification. *)
Theorem description_irrelevant (tag s : string) :
  index 0 "] " tag = None ->
  tagged tag s ->
  _tag_parts s = spec_tokens tag /\
  _classify (JStr s) = _classify (JStr ("[" ++ tag ++ "]")) /\
  forall rest, _classify (JList (JStr s :: rest)) =
               _classify (JList [JStr ("[" ++ tag ++ "]")]).
Proof.
intros Htag Hs.
assert (E1 : _tag_parts s = spec_tokens tag) by now apply tag_parts_tagged.
assert (E2 : _tag_parts ("[" ++ tag ++ "]") = spec_tokens tag)
  by (apply tag_parts_tagged; [exact Htag|now left]).
split; [exact E1|]. unfold _classify. now rewrite E1, E2.
Qed.

Lemma description_irrelevant_witness :
  index 0 "] " "list[str], optional" = None /\
  tagged "list[str], optional" "[list[str], optional] other names" /\
  _tag_parts "[list[str], optional] other names" = ["list[str]"; "optional"].
Proof.
split; [reflexivity|].
assert (Ht : tagged "list[str], optional" "[list[str], optional] other names")
  by (right; now exists "other names").
split; [exact Ht|].
exact (proj1 (description_irrelevant "list[str], optional"
                "[list[str], optional] other names" eq_refl Ht)).
Defined.

(** ** Strings without a closing bracket *)

(** X9: when a schema string holds no ["]"], [close] stays [-1] and the
    tokens are read from the string without its first and last
    character: plain description text is split on commas like a tag.
    A string of at most one character has the single empty token and is
    of kind required_str. *)
Theorem untagged_string_tokens (c1 c2 : ascii) (inner : string) :
  let s := String c1 (inner ++ String c2 "") in
  PyStr.find "] " s = (-1)%Z ->
  PyStr.rfind "]" s = (-1)%Z ->
  _tag_parts s = spec_tokens inner /\
  (forall c, _tag_parts "" = [""] /\ _tag_parts (String c "") = [""] /\
             _classify (JStr "") = k_required_str /\
             _classify (JStr (String c "")) = k_required_str).
Proof.
intros s Hfind Hrfind. split.
- unfold _tag_parts. rewrite Hfind. cbn [Z.eqb Pos.eqb]. rewrite Hrfind.
  unfold spec_tokens. do 2 f_equal.
  unfold PyStr.slice, PyStr.clamp. subst s.
  cbn [String.length]. rewrite app_str_length. cbn [String.length].
  destruct (Z.ltb_spec 1 0) as [?|_]; [lia|].
  destruct (Z.ltb_spec (-1) 0) as [_|?]; [|lia].
  replace (Z.to_nat (Z.min 1 (Z.of_nat (S (String.length inner + 1)))))
    with 1 by lia.
  replace (Z.to_nat
             (Z.max 0 (-1 + Z.of_nat (S (String.length inner + 1)))
              - Z.min 1 (Z.of_nat (S (String.length inner + 1)))))
    with (String.length inner) by lia.
  cbn [substring]. apply substring_prefix.
- intros c.
  assert (E : _tag_parts (String c "") = [""]).
  { assert (Hp : prefix "] " (String c "") = false).
    { destruct (prefix "] " (String c "")) eqn:Ep; [|reflexivity].
      apply prefix_close_cons in Ep. destruct Ep as [_ [r Er]]. discriminate. }
    unfold _tag_parts, PyStr.find, PyStr.rfind.
    rewrite index_cons, Hp. change (index 0 "] " "") with (@None nat).
    cbn [PyStr.rindex]. change (prefix "]" "") with false.
    destruct (prefix "]" (String c "")); reflexivity. }
  split; [reflexivity|]. split; [exact E|]. split; [reflexivity|].
  unfold _classify. rewrite E. reflexivity.
Qed.

Lemma untagged_string_tokens_witness :
  PyStr.find "] " "name, optional, of the item" = (-1)%Z /\
  PyStr.rfind "]" "name, optional, of the item" = (-1)%Z /\
  _tag_parts "name, optional, of the item" = ["ame"; "optional"; "of the ite"].
Proof.
split; [reflexivity|]. split; [reflexivity|].
exact (proj1 (untagged_string_tokens "n" "m" "ame, optional, of the ite"
                eq_refl eq_refl)).
Defined.

(** ** Fields of kind required_any *)

(** X10: a field tagged [any] is of kind required_any: every present
    value is accepted, null included, and only an absent key is
    reported. *)
Theorem any_field_accepts (d : list (string * json)) (key s : string)
  (violations : list violation) (path : string) :
  tagged "any" s ->
  _classify (JStr s) = k_required_any /\
  (forall v, lookup key d = Some v ->
     validate_field _validate d key (JStr s) violations path = violations) /\
  (lookup key d = None ->
     validate_field _validate d key (JStr s) violations path =
     violations ++ [Violation (field_path_of path key) (JStr s) MissingField]).
Proof.
intros Hs.
assert (Hk : _classify (JStr s) = k_required_any).
{ unfold _classify. rewrite (tag_parts_tagged "any" s eq_refl Hs). reflexivity. }
split; [exact Hk|]. split.
- intros v Hv. unfold validate_field. now rewrite Hk, Hv.
- intros Hv. unfold validate_field. now rewrite Hk, Hv.
Qed.

Lemma any_field_accepts_witness :
  tagged "any" "[any] free-form payload" /\
  validate_field _validate [("payload", JNull)] "payload"
    (JStr "[any] free-form payload") [] "" = [].
Proof.
assert (Ht : tagged "any" "[any] free-form payload")
  by (right; now exists "free-form payload").
split; [exact Ht|].
destruct (any_field_accepts [("payload", JNull)] "payload"
            "[any] free-form payload" [] "" Ht) as [_ [H _]].
exact (H JNull eq_refl).
Defined.

(** ** Values that are not objects *)

(** X11: a value that is not an object is reported in two different
    ways.  Under a field of kind required_dict it gets one TypeMismatch
    with the schema of the field and nothing below it is checked; as an
    element of a list of kind required_list_dict it gets one TypeMismatch
    at [field[i]] with the fixed descriptor. *)
Theorem non_object_values (d : list (string * json)) (key : string)
  (schema_value v : json) (violations : list violation) (path : string) :
  isinstance v py_dict = false ->
  (_classify schema_value = k_required_dict ->
   lookup key d = Some v ->
   validate_field _validate d key schema_value violations path =
   violations ++ [Violation (field_path_of path key) schema_value TypeMismatch]) /\
  (_classify schema_value = k_required_list_dict ->
   forall elems i,
     lookup key d = Some (JList elems) ->
     nth_error elems i = Some v ->
     In (Violation (elem_path (field_path_of path key) i) item_desc TypeMismatch)
        (validate_field _validate d key schema_value violations path)).
Proof.
intros Hv. split.
- intros Hk Hl. unfold validate_field. rewrite Hk, Hl, Hv. reflexivity.
- intros Hk elems i Hl Hi.
  rewrite (list_field_out d key schema_value elems violations path
             (or_intror Hk) Hl).
  apply in_or_app. right. apply in_or_app. right.
  unfold element_checks. rewrite Hk.
  destruct (classify_list_dict schema_value Hk) as [sub [rest ->]].
  assert (Hgen : forall l j k w,
            nth_error l k = Some w -> isinstance w py_dict = false ->
            In (Violation (elem_path (field_path_of path key) (j + k))
                  item_desc TypeMismatch)
               (each_item (fun item => _validate item (JDict sub))
                  (field_path_of path key) j l [])).
  { induction l as [|e l IH]; intros j [|k] w Hk' Hw; simpl in Hk';
      try discriminate; cbn [each_item].
    - injection Hk' as ->. rewrite Nat.add_0_r.
      rewrite (each_item_extends (fun item => _validate item (JDict sub))
                 _ l (fun item p => validate_extends (JDict sub) item p)).
      apply in_or_app. left. rewrite validate_not_dict by exact Hw. now left.
    - rewrite (each_item_extends (fun item => _validate item (JDict sub))
                 _ l (fun item p => validate_extends (JDict sub) item p)).
      apply in_or_app. right. rewrite Nat.add_succ_r.
      now apply (IH (S j) k w). }
  exact (Hgen elems 0 i v Hi Hv).
Qed.

Lemma non_object_values_witness :
  isinstance (JInt 7) py_dict = false /\
  validate_field _validate [("meta", JInt 7)] "meta"
    (JDict [("email", JStr "e-mail")]) [] "" =
  [Violation "meta" (JDict [("email", JStr "e-mail")]) TypeMismatch].
Proof.
split; [reflexivity|].
destruct (non_object_values [("meta", JInt 7)] "meta"
            (JDict [("email", JStr "e-mail")]) (JInt 7) [] "" eq_refl)
  as [H _].
exact (H eq_refl eq_refl).
Defined.

(** ** Splitting *)

Lemma str_drop_app (a b : string) : str_drop (String.length a) (a ++ b) = b.
Proof. induction a as [|c a IH]; simpl; [reflexivity|exact IH]. Qed.

Lemma str_drop_nil (k : nat) : str_drop k "" = ""%string.
Proof. now destruct k. Qed.

Lemma concat_cons (sep x : string) (l : list string) :
  l <> [] -> String.concat sep (x :: l) = (x ++ sep ++ String.concat sep l)%string.
Proof. destruct l; [now intros H|reflexivity]. Qed.

Lemma split_aux_join (sep : string) :
  sep <> ""%string ->
  forall s k cur,
    String.concat sep (PyStr.split_aux sep k cur s) = (cur ++ str_drop k s)%string.
Proof.
intros Hsep. induction s as [|c s IH]; intros k cur.
- cbn [PyStr.split_aux String.concat]. now rewrite str_drop_nil, app_str_nil_r.
- cbn [PyStr.split_aux]. destruct k as [|k].
  + destruct (prefix sep (String c s)) eqn:Ep.
    * rewrite concat_cons by apply split_aux_nonempty.
      rewrite IH. cbn [String.append str_drop].
      apply prefix_spec in Ep. destruct Ep as [rest E].
      destruct sep as [|c0 sep']; [now destruct Hsep|].
      cbn [String.append] in E. injection E as <- ->.
      replace (String.length (String c sep') - 1) with (String.length sep')
        by (cbn [String.length]; lia).
      rewrite str_drop_app. reflexivity.
    * rewrite IH. cbn [str_drop]. now rewrite app_str_assoc.
  + rewrite IH. reflexivity.
Qed.

(** X12: splitting loses nothing: the pieces of a string split on a
    non-empty separator, joined again with the separator, give the string
    back; this holds of the comma split of [_tag_parts] and of the
    [ or ] split of the type tokens. *)
Theorem split_join (sep s : string) :
  sep <> ""%string ->
  String.concat sep (PyStr.split sep s) = s.
Proof.
intros Hsep. unfold PyStr.split. now rewrite split_aux_join.
Qed.

Lemma split_join_witness :
  String.concat " or " (PyStr.split " or " "int or float") = "int or float".
Proof. apply split_join. discriminate. Defined.

(** ** Element types that are not known *)

Lemma allowed_of_nil_iff (inner : string) :
  allowed_of inner = [] <->
  forall t, In t (PyStr.split " or " inner) -> _type_map (PyStr.strip t) = None.
Proof.
unfold allowed_of. rewrite flat_map_nil_iff. split; intros H t Ht.
- specialize (H t Ht). destruct (_type_map (PyStr.strip t)); [discriminate|reflexivity].
- now rewrite (H t Ht).
Qed.

Lemma slice_list_inner (T : string) :
  PyStr.slice ("list[" ++ T ++ "]") 5 (-1) = T.
Proof.
unfold PyStr.slice, PyStr.clamp.
cbn [String.append String.length]. rewrite app_str_length. cbn [String.length].
destruct (Z.ltb_spec 5 0) as [?|_]; [lia|].
destruct (Z.ltb_spec (-1) 0) as [_|?]; [|lia].
replace (Z.to_nat (Z.min 5 (Z.of_nat (S (S (S (S (S (String.length T + 1)))))))))
  with 5 by lia.
replace (Z.to_nat
           (Z.max 0 (-1 + Z.of_nat (S (S (S (S (S (String.length T + 1)))))))
            - Z.min 5 (Z.of_nat (S (S (S (S (S (String.length T + 1)))))))))
  with (String.length T) by lia.
cbn [substring]. apply substring_prefix.
Qed.

(** X13: the elements of a string list are checked only against type
    names that [_type_map] knows.  When no name of the derived element
    type is known (as for a template that is plain description text),
    no element is ever reported, whatever its type, and the field is left
    with the emptiness check alone.  For a tag [list[T]] the derived
    element type is [T]. *)
Theorem unchecked_elements (d : list (string * json)) (key : string)
  (schema_value : json) (elems : list json) (violations : list violation)
  (path : string) :
  _classify schema_value = k_required_list_str ->
  lookup key d = Some (JList elems) ->
  (forall t, In t (PyStr.split " or " (inner_type_str_of schema_value)) ->
             _type_map (PyStr.strip t) = None) ->
  validate_field _validate d key schema_value violations path =
    violations
    ++ (if must_be_non_empty key && negb (nonempty elems)
        then [Violation (field_path_of path key) schema_value NullOrEmptyValue]
        else []) /\
  (forall s T rest,
     _tag_parts s = ("list[" ++ T ++ "]")%string :: rest ->
     inner_type_str_of (JStr s) = T).
Proof.
intros Hk Hv Hnone. split.
- rewrite (list_field_out d key schema_value elems violations path
             (or_introl Hk) Hv).
  rewrite check_non_empty_nil. unfold element_checks. rewrite Hk.
  rewrite (proj2 (allowed_of_nil_iff (inner_type_str_of schema_value)) Hnone).
  cbn [nonempty]. now rewrite app_nil_r.
- intros s T rest E. unfold inner_type_str_of. rewrite E.
  cbn [first_part hd]. apply slice_list_inner.
Qed.

Lemma unchecked_elements_witness :
  _classify (JList [JStr "tag text"]) = k_required_list_str /\
  validate_field _validate [("tags", JList [JInt 1; JNull])] "tags"
    (JList [JStr "tag text"]) [] "" = [].
Proof.
split; [reflexivity|].
refine (proj1 (unchecked_elements [("tags", JList [JInt 1; JNull])] "tags"
                 (JList [JStr "tag text"]) [JInt 1; JNull] [] ""
                 eq_refl eq_refl _)).
intros t [<-|[]]. reflexivity.
Defined.

(** ** The branch taken fits the schema value *)

(** X14: the kind returned by [_classify] fixes the shape of the schema
    value, so the operations of each branch of [_validate] are defined:
    the string kinds are returned only for strings, required_dict only
    for objects (the recursive call gets an object schema), and
    required_list_dict only for a non-empty list whose first element is
    an object ([schema_value[0]] exists and is the object schema of the
    recursive calls); a list of kind required_list_str has a string as
    first element. *)
Theorem classified_shapes (schema_value : json) :
  match _classify schema_value with
  | k_required_str | k_required_any | k_required_numeric =>
      exists s, schema_value = JStr s
  | k_required_dict => exists items, schema_value = JDict items
  | k_required_list_dict =>
      exists items rest, schema_value = JList (JDict items :: rest)
  | k_required_list_str =>
      (exists s, schema_value = JStr s) \/
      (exists s rest, schema_value = JList (JStr s :: rest))
  | k_auto | k_optional => True
  end.
Proof.
destruct (_classify schema_value) eqn:Hk; try exact I.
- destruct schema_value as [ | | | | s | [|[ | | | | t | | ] rest] | ];
    try discriminate; [now exists s|].
  simpl in Hk. destruct (_ || _); discriminate.
- destruct schema_value as [ | | | | s | [|[ | | | | t | | ] rest] | ];
    try discriminate; [now exists s|].
  simpl in Hk. destruct (_ || _); discriminate.
- now apply classify_numeric.
- now apply classify_dict.
- now apply classify_list_str.
- now apply classify_list_dict.
Qed.

(** ** The starting path only labels *)

Lemma elem_mismatches_unlabelled (allowed : list pytype) (fp fp' : string)
  (sv : json) (elems : list json) :
  forall i j,
  map unlabelled (elem_mismatches allowed fp sv i elems) =
  map unlabelled (elem_mismatches allowed fp' sv j elems).
Proof.
induction elems as [|e rest IH]; intros i j; simpl; [reflexivity|].
rewrite !map_app, (IH (S i) (S j)).
now destruct (isinstance_any e allowed).
Qed.

Lemma each_item_unlabelled
  (call : json -> list violation -> string -> list violation)
  (fp fp' : string) (elems : list json) :
  (forall item p, extends (fun vs => call item vs p)) ->
  (forall item p p',
     map unlabelled (call item [] p) = map unlabelled (call item [] p')) ->
  forall i j,
  map unlabelled (each_item call fp i elems []) =
  map unlabelled (each_item call fp' j elems []).
Proof.
intros Hext Hcall. induction elems as [|e rest IH]; intros i j; simpl;
  [reflexivity|].
rewrite (each_item_extends call fp rest Hext (S i) (call e [] (elem_path fp i))).
rewrite (each_item_extends call fp' rest Hext (S j) (call e [] (elem_path fp' j))).
rewrite !map_app, (IH (S i) (S j)).
now rewrite (Hcall e (elem_path fp i) (elem_path fp' j)).
Qed.

Lemma validate_field_unlabelled (d : list (string * json)) (key : string)
  (sv : json) (p p' : string) :
  (forall data q q',
     map unlabelled (_validate data sv [] q) =
     map unlabelled (_validate data sv [] q')) ->
  (forall template rest, sv = JList (template :: rest) ->
     forall data q q',
       map unlabelled (_validate data template [] q) =
       map unlabelled (_validate data template [] q')) ->
  map unlabelled (validate_field _validate d key sv [] p) =
  map unlabelled (validate_field _validate d key sv [] p').
Proof.
intros IHsv IHt.
destruct (_classify sv) eqn:Hk.
1-6: unfold validate_field; rewrite Hk; try reflexivity;
     destruct (lookup key d) as [x|]; try reflexivity.
- destruct x; reflexivity.
- destruct sv; try reflexivity. destruct (negb _); reflexivity.
- destruct (negb _); [reflexivity|apply IHsv].
- destruct (lookup key d) as [x|] eqn:Hx;
    [|unfold validate_field; rewrite Hk, Hx; reflexivity].
  destruct x as [ | | | | | elems | ];
    try (unfold validate_field; rewrite Hk, Hx; reflexivity).
  rewrite !(list_field_out d key sv elems [] _ (or_introl Hk) Hx).
  cbn [app]. rewrite !map_app. f_equal.
  + rewrite !check_non_empty_nil.
    now destruct (must_be_non_empty key && negb (nonempty elems)).
  + unfold element_checks. rewrite Hk.
    destruct (nonempty _); [|reflexivity].
    rewrite !check_elems_eq. cbn [app]. apply elem_mismatches_unlabelled.
- destruct (lookup key d) as [x|] eqn:Hx;
    [|unfold validate_field; rewrite Hk, Hx; reflexivity].
  destruct x as [ | | | | | elems | ];
    try (unfold validate_field; rewrite Hk, Hx; reflexivity).
  rewrite !(list_field_out d key sv elems [] _ (or_intror Hk) Hx).
  cbn [app]. rewrite !map_app. f_equal.
  + rewrite !check_non_empty_nil.
    now destruct (must_be_non_empty key && negb (nonempty elems)).
  + unfold element_checks. rewrite Hk.
    destruct (classify_list_dict sv Hk) as [sub [rest ->]].
    apply (each_item_unlabelled (fun item => _validate item (JDict sub))).
    * intros item q. apply validate_extends.
    * intros item q q'. now apply (IHt (JDict sub) rest).
Qed.

Lemma validate_unlabelled (schema : json) :
  forall data p p',
  map unlabelled (_validate data schema [] p) =
  map unlabelled (_validate data schema [] p').
Proof.
induction schema as [j Hj | items IHfield IHtemplate] using schema_ind;
  intros data p p'.
- destruct j as [ | | | | | | its]; try (now destruct (Hj its));
    destruct data; reflexivity.
- destruct data as [ | | | | | | d]; try reflexivity.
  rewrite !validate_dict_flat_map. cbn [app].
  induction items as [|[key sv] items IH]; [reflexivity|].
  cbn [flat_map fst snd]. rewrite !map_app. f_equal.
  + apply validate_field_unlabelled.
    * intros data q q'. apply (IHfield key sv). now left.
    * intros template rest E data q q'.
      apply (IHtemplate key template rest). left. now rewrite E.
  + apply IH.
    * intros k v Hin. apply (IHfield k v). now right.
    * intros k t r Hin. apply (IHtemplate k t r). now right.
Qed.

(** X15: the path a validation starts at only labels the violations:
    their number, order, descriptors and kinds are the same for every
    starting path, and so is the verdict. *)
Theorem path_only_labels (data schema : json) (p p' : string) :
  map unlabelled (_validate data schema [] p) =
    map unlabelled (_validate data schema [] p') /\
  List.length (_validate data schema [] p) =
    List.length (_validate data schema [] p') /\
  (_validate data schema [] p = [] <-> _validate data schema [] p' = []).
Proof.
pose proof (validate_unlabelled schema data p p') as H.
split; [exact H|].
assert (Hlen : List.length (_validate data schema [] p) =
               List.length (_validate data schema [] p')).
{ rewrite <- (length_map unlabelled (_validate data schema [] p)), H.
  apply length_map. }
split; [exact Hlen|].
destruct (_validate data schema [] p), (_validate data schema [] p');
  simpl in Hlen; split; congruence.
Qed.

(** ** Which violation carries which descriptor *)

(** The output of a field: its own violation, then the violations below
    it. *)
Lemma validate_field_parts (d : list (string * json)) (key : string)
  (sv : json) (vs : list violation) (path : string) :
  validate_field _validate d key sv vs path =
  vs ++ (match field_violation d key sv with
         | Some t => [Violation (field_path_of path key) sv t]
         | None => []
         end)
     ++ nested_checks d key sv path.
Proof.
rewrite validate_field_app. f_equal.
unfold field_violation, nested_checks. destruct (_classify sv) eqn:Hk.
- unfold validate_field. now rewrite Hk.
- unfold validate_field. now rewrite Hk.
- unfold validate_field. rewrite Hk.
  destruct (lookup key d) as [[ | | | | | | ]|]; reflexivity.
- unfold validate_field. rewrite Hk.
  destruct (lookup key d) as [x|]; reflexivity.
- destruct (classify_numeric sv Hk) as [s ->].
  unfold validate_field. rewrite Hk.
  destruct (lookup key d) as [x|]; [|reflexivity].
  rewrite numeric_valid_spec. now destruct (existsb _ _).
- unfold validate_field. rewrite Hk.
  destruct (lookup key d) as [[ | | | | | | ]|]; reflexivity.
- destruct (lookup key d) as [x|] eqn:Hx;
    [|unfold validate_field; rewrite Hk, Hx; reflexivity].
  destruct x as [ | | | | | elems | ];
    try (unfold validate_field; rewrite Hk, Hx; reflexivity).
  rewrite (list_field_out d key sv elems [] path (or_introl Hk) Hx).
  cbn [app]. rewrite check_non_empty_nil.
  now destruct (must_be_non_empty key && negb (nonempty elems)).
- destruct (lookup key d) as [x|] eqn:Hx;
    [|unfold validate_field; rewrite Hk, Hx; reflexivity].
  destruct x as [ | | | | | elems | ];
    try (unfold validate_field; rewrite Hk, Hx; reflexivity).
  rewrite (list_field_out d key sv elems [] path (or_intror Hk) Hx).
  cbn [app]. rewrite check_non_empty_nil.
  now destruct (must_be_non_empty key && negb (nonempty elems)).
Qed.

Lemma each_item_nth
  (call : json -> list violation -> string -> list violation)
  (fp : string) (elems : list json) (v : violation) :
  (forall item p, extends (fun vs => call item vs p)) ->
  forall i k e, nth_error elems k = Some e ->
  In v (call e [] (elem_path fp (i + k))) ->
  In v (each_item call fp i elems []).
Proof.
intros Hcall. induction elems as [|item rest IH]; intros i [|k] e Hk Hin;
  simpl in Hk; try discriminate; cbn [each_item];
  rewrite (each_item_extends call fp rest Hcall (S i)
             (call item [] (elem_path fp i)));
  apply in_or_app.
- injection Hk as ->. rewrite Nat.add_0_r in Hin. now left.
- right. rewrite Nat.add_succ_r in Hin. now apply (IH (S i) k e).
Qed.

Lemma field_in_validate (d items : list (string * json)) (key : string)
  (sv : json) (path : string) (v : violation) :
  In (key, sv) items ->
  In v (validate_field _validate d key sv [] path) ->
  In v (_validate (JDict d) (JDict items) [] path).
Proof.
intros Hitem Hin. rewrite validate_dict_flat_map. cbn [app].
apply in_flat_map. exists (key, sv). split; [exact Hitem|exact Hin].
Qed.

(** Every emitted violation is in the output. *)
Lemma emitted_validate (data schema : json) (path : string) (v : violation) :
  emitted data schema path v -> In v (_validate data schema [] path).
Proof.
induction 1 as
  [ data schema path Hd
  | d items path key sv t Hitem Ht
  | d items path key sv elems i e Hitem Hk Hl Hi Hallowed He
  | d items path key sub d' v Hitem Hl _ IH
  | d items path key template rest elems i e v Hitem Hk Hl Hi _ IH ].
- rewrite validate_not_dict by exact Hd. now left.
- apply (field_in_validate d items key sv path); [exact Hitem|].
  rewrite validate_field_parts, Ht. cbn [app]. now left.
- apply (field_in_validate d items key sv path); [exact Hitem|].
  rewrite validate_field_parts. cbn [app]. apply in_or_app. right.
  unfold nested_checks, element_checks. rewrite Hk, Hl.
  destruct (allowed_of (inner_type_str_of sv)) as [|c cs] eqn:Ea;
    [now destruct Hallowed|].
  cbn [nonempty]. rewrite check_elems_eq. cbn [app].
  now apply (elem_mismatches_nth (c :: cs) _ sv elems 0 i e).
- apply (field_in_validate d items key (JDict sub) path); [exact Hitem|].
  rewrite validate_field_parts. cbn [app]. apply in_or_app. right.
  unfold nested_checks. cbn [_classify]. rewrite Hl. exact IH.
- apply (field_in_validate d items key (JList (template :: rest)) path);
    [exact Hitem|].
  rewrite validate_field_parts. cbn [app]. apply in_or_app. right.
  unfold nested_checks, element_checks. rewrite Hk, Hl.
  apply (each_item_nth (fun item => _validate item template) _ elems v
           (fun item p => validate_extends template item p) 0 i e Hi).
  exact IH.
Qed.

Lemma validate_field_emitted (items d : list (string * json)) (key : string)
  (sv : json) (path : string) (v : violation) :
  (forall data p w, In w (_validate data sv [] p) -> emitted data sv p w) ->
  (forall template rest, sv = JList (template :: rest) ->
     forall data p w, In w (_validate data template [] p) ->
                      emitted data template p w) ->
  In (key, sv) items ->
  In v (validate_field _validate d key sv [] path) ->
  emitted (JDict d) (JDict items) path v.
Proof.
intros IHsv IHt Hitem Hin.
rewrite validate_field_parts in Hin. cbn [app] in Hin.
apply in_app_or in Hin. destruct Hin as [Hin|Hin].
- destruct (field_violation d key sv) as [t|] eqn:Ht; [|contradiction].
  destruct Hin as [<-|[]]. now apply em_field.
- unfold nested_checks in Hin.
  destruct (_classify sv) eqn:Hk; try contradiction;
    destruct (lookup key d) as [x|] eqn:Hl; try contradiction;
    destruct x as [ | | | | | elems | d']; try contradiction.
  + destruct (classify_dict sv Hk) as [sub ->].
    apply (em_in_dict d items path key sub d'); auto.
  + unfold element_checks in Hin. rewrite Hk in Hin.
    destruct (nonempty (allowed_of (inner_type_str_of sv))) eqn:Hne;
      [|contradiction].
    rewrite check_elems_eq in Hin. cbn [app] in Hin.
    apply elem_mismatches_in in Hin. destruct Hin as [k [e [Hk' [He ->]]]].
    apply (em_element d items path key sv elems (0 + k) e); auto.
    intros E. rewrite E in Hne. discriminate.
  + unfold element_checks in Hin. rewrite Hk in Hin.
    destruct (classify_list_dict sv Hk) as [sub [rest ->]].
    apply each_item_in in Hin; [|intros item p; apply validate_extends].
    destruct Hin as [[]|[k [item [Hk' Hin]]]].
    apply (em_in_item d items path key (JDict sub) rest elems (0 + k) item);
      auto.
    now apply (IHt (JDict sub) rest eq_refl).
Qed.

(** Every violation in the output is emitted. *)
Lemma validate_emitted (schema : json) :
  forall data path v,
  In v (_validate data schema [] path) -> emitted data schema path v.
Proof.
induction schema as [j Hj | items IHfield IHtemplate] using schema_ind;
  intros data path v Hin.
- destruct j as [ | | | | | | its]; try (now destruct (Hj its));
    destruct data; simpl in Hin; try contradiction;
    destruct Hin as [<-|[]]; now apply em_not_object.
- destruct data as [ | | | | | | d];
    try (destruct Hin as [<-|[]]; now apply em_not_object).
  rewrite validate_dict_flat_map in Hin. cbn [app] in Hin.
  apply in_flat_map in Hin. destruct Hin as [[key sv] [Hitem Hin]].
  cbn [fst snd] in Hin.
  apply (validate_field_emitted items d key sv path v); auto.
  + intros data p w. now apply (IHfield key).
  + intros template rest -> data p w. now apply (IHtemplate key template rest).
Qed.

(** C8, as the code has it: the violations appended by a validation are
    exactly the emitted ones, so each carries the descriptor that
    [emitted] gives it.  The violation of a schema field (missing key,
    null or empty value, wrong type) carries the schema value of that
    field, and so does the TypeMismatch of an element of a string list,
    at [field[i]].  The violation of a value that is not an object (the
    record itself, or an element of an object list) is a TypeMismatch at
    the path of that value and carries the fixed string
    [OPENEVAL ITEM IN JSON FORMAT]; no other violation is recorded. *)
Theorem violation_descriptor (data : json) (schema : list (string * json))
  (violations : list violation) (path : string) (v : violation) :
  _validate data (JDict schema) violations path =
    violations ++ _validate data (JDict schema) [] path /\
  (In v (_validate data (JDict schema) [] path) <->
   emitted data (JDict schema) path v) /\
  (isinstance data py_dict = false ->
   _validate data (JDict schema) [] path =
     [Violation path item_desc TypeMismatch]).
Proof.
split; [apply (validate_extends (JDict schema) data path violations)|].
split.
- split; [apply validate_emitted|apply emitted_validate].
- intros H. now rewrite validate_not_dict.
Qed.

Lemma violation_descriptor_witness :
  isinstance (JInt 7) py_dict = false /\
  In (Violation "responses[1]" item_desc TypeMismatch)
     (_validate
        (JDict [("responses", JList [JDict [("text", JStr "a")]; JInt 7])])
        (JDict [("responses", JList [JDict [("text", JStr "response text")]])])
        [] "") /\
  emitted (JDict [("scores", JList [JStr "x"])])
    (JDict [("scores", JList [JStr "[int or float] a score"])]) ""
    (Violation "scores[0]" (JList [JStr "[int or float] a score"]) TypeMismatch).
Proof.
split; [reflexivity|]. split.
- apply (proj2 (proj1 (proj2 (violation_descriptor _ _ [] "" _)))).
  apply (em_in_item _ _ "" "responses"
           (JDict [("text", JStr "response text")]) []
           [JDict [("text", JStr "a")]; JInt 7] 1 (JInt 7)).
  + now left.
  + reflexivity.
  + reflexivity.
  + reflexivity.
  + now apply em_not_object.
- apply (proj1 (proj1 (proj2 (violation_descriptor _ _ [] "" _)))).
  vm_compute. tauto.
Defined.

(** The descriptors are not interchangeable: a value that is not an
    object under an object field is not reported with the fixed string,
    and an element of an object list that is not an object is not
    reported with the schema of the list. *)
Example emitted_is_directed :
  ~ emitted (JDict [("meta", JInt 7)])
      (JDict [("meta", JDict [("email", JStr "e-mail")])]) ""
      (Violation "meta" item_desc TypeMismatch) /\
  ~ emitted (JDict [("responses", JList [JInt 7])])
      (JDict [("responses", JList [JDict [("text", JStr "response text")]])]) ""
      (Violation "responses[0]"
         (JList [JDict [("text", JStr "response text")]]) TypeMismatch).
Proof.
split; intros H; apply emitted_validate in H; vm_compute in H;
  destruct H as [E|[]]; discriminate.
Qed.
